(** * simpleNMT: the parallel-corpus data loader (src/data/dataloader.py)

    A shallow embedding of [ParallelDataset], [parallel_collate_fn] and the two
    loader factories, with the properties of the batches they produce.

    Conventions of the embedding.
    - A Python [str] is a [string]; a character is a code point below 256.
    - A vocabulary [word2id] is the Python list the code calls [.index] on.
    - A 1-D tensor is the list of its entries, each the integer it stands
      for.  [torch.Tensor(ids)] stores the ids as float32, so an id is kept
      as the nearest float32 ([float32_of_Z]); the grid takes the entries
      back as int64, which changes no float32 that is an integer.
    - A Python exception is a value of [exn]; a call that may raise returns a
      [result]; code that touches the module global or a list object runs in
      the state monad [M]. *)

From Stdlib Require Import ZArith Ascii String.
From stdpp Require Import base gmap list strings sorting.

(** ** Exceptions and results *)

(** Why a [ValueError] was raised. *)
Inductive value_error : Type :=
  | not_in_list (x : string)      (* list.index(x): x not in list *)
  | not_enough_values             (* a, b = <iterator of no item> *)
  | max_of_empty                  (* max([]) *)
  | bad_batch_size.               (* BatchSampler: batch_size <= 0 *)

Inductive exn : Type :=
  | ValueError (why : value_error)
  | IndexError                    (* list index out of range *)
  | FileNotFoundError (path : string)
  | PermissionError (path : string)
  | IsADirectoryError (path : string)
  | OSError (errno : Z)           (* any other failure of the system *)
  | UnicodeDecodeError            (* the bytes of the file are no text *)
  | AttributeError                (* the object has no such method *)
  | RuntimeError.                 (* torch: shapes do not broadcast *)

(** The built-in exception classes the specification names, with Python's
    subclass relation: [LookupError] is the base of [IndexError] and
    [KeyError] only; [ValueError] derives from [Exception] directly and is
    the base of [UnicodeDecodeError]; [OSError] is the base of
    [FileNotFoundError], [PermissionError] and [IsADirectoryError]. *)
Inductive exn_class : Type :=
  | cls_Exception | cls_LookupError | cls_IndexError | cls_ValueError
  | cls_OSError | cls_AttributeError | cls_RuntimeError.

Definition class_of (e : exn) : exn_class :=
  match e with
  | ValueError _ => cls_ValueError
  | IndexError => cls_IndexError
  | FileNotFoundError _ => cls_OSError
  | PermissionError _ => cls_OSError
  | IsADirectoryError _ => cls_OSError
  | OSError _ => cls_OSError
  | UnicodeDecodeError => cls_ValueError
  | AttributeError => cls_AttributeError
  | RuntimeError => cls_RuntimeError
  end.

Definition issubclass (c d : exn_class) : bool :=
  match d, c with
  | cls_Exception, _ => true
  | cls_LookupError, (cls_LookupError | cls_IndexError) => true
  | cls_IndexError, cls_IndexError => true
  | cls_ValueError, cls_ValueError => true
  | cls_OSError, cls_OSError => true
  | cls_AttributeError, cls_AttributeError => true
  | cls_RuntimeError, cls_RuntimeError => true
  | _, _ => false
  end.

Definition isinstance (e : exn) (d : exn_class) : bool :=
  issubclass (class_of e) d.

Inductive result (A : Type) : Type :=
  | Ok (a : A)
  | Raise (e : exn).
Arguments Ok {A} a.
Arguments Raise {A} e.

#[global] Instance result_ret : MRet result := λ A a, Ok a.
#[global] Instance result_bind : MBind result := λ A B f r,
  match r with Ok a => f a | Raise e => Raise e end.

(** ** Python built-ins *)

Module Py.

(** [str.isspace] on one character (code points below 256): TAB..CR,
    FS..US, SPACE, NEL, NBSP. *)
Definition isspace (c : ascii) : bool :=
  let n := N_of_ascii c in
  (((9 <=? n) && (n <=? 13)) || ((28 <=? n) && (n <=? 32))
   || (n =? 133) || (n =? 160))%N.

(** [tok] holds the characters of the token being read, last one first. *)
Fixpoint split_from (tok : list ascii) (s : string) : list string :=
  match s with
  | EmptyString =>
      match tok with [] => [] | _ => [string_of_list_ascii (rev tok)] end
  | String c s' =>
      if isspace c then
        match tok with
        | [] => split_from [] s'
        | _ => string_of_list_ascii (rev tok) :: split_from [] s'
        end
      else split_from (c :: tok) s'
  end.

(** [s.split()]: the maximal runs of non-whitespace characters. *)
Definition split (s : string) : list string := split_from [] s.

(** The line boundaries of [str.splitlines] (code points below 256):
    LF, VT, FF, CR, FS, GS, RS, NEL. *)
Definition is_linebreak (c : ascii) : bool :=
  let n := N_of_ascii c in
  (((10 <=? n) && (n <=? 13)) || ((28 <=? n) && (n <=? 30)) || (n =? 133))%N.

Definition is_CR (c : ascii) : bool := (N_of_ascii c =? 13)%N.
Definition is_LF (c : ascii) : bool := (N_of_ascii c =? 10)%N.

(** [cur] holds the characters of the line being read, last one first; a
    CR LF pair is one boundary. *)
Fixpoint splitlines_from (cur : list ascii) (s : string) : list string :=
  match s with
  | EmptyString =>
      match cur with [] => [] | _ => [string_of_list_ascii (rev cur)] end
  | String c s' =>
      if is_linebreak c then
        string_of_list_ascii (rev cur) ::
          match s' with
          | String c' s'' =>
              if is_CR c && is_LF c' then splitlines_from [] s''
              else splitlines_from [] s'
          | EmptyString => splitlines_from [] s'
          end
      else splitlines_from (c :: cur) s'
  end.

(** [s.splitlines()]. *)
Definition splitlines (s : string) : list string := splitlines_from [] s.

(** [l.index(x)]: the first position of [x], or [ValueError]. *)
Definition index (l : list string) (x : string) : result nat :=
  match list_find (λ y, y = x) l with
  | Some (i, _) => Ok i
  | None => Raise (ValueError (not_in_list x))
  end.

(** [l[i]] for a Python int [i]: negative indices count from the end. *)
Definition getitem {A} (l : list A) (i : Z) : result A :=
  let n := Z.of_nat (length l) in
  let j := if (i <? 0)%Z then (i + n)%Z else i in
  if (j <? 0)%Z then Raise IndexError
  else match l !! Z.to_nat j with
       | Some a => Ok a
       | None => Raise IndexError
       end.

(** [max(l)] of a list of lengths. *)
Definition max (l : list nat) : result nat :=
  match l with
  | [] => Raise (ValueError max_of_empty)
  | n :: l' => Ok (foldl Nat.max n l')
  end.

End Py.

(** ** Tensors *)

(** A 1-D tensor: the list of its entries. *)
Abbreviation tensor := (list Z) (only parsing).

(** The float32 nearest to an integer, ties to the even significand: the
    24 leading bits are kept and the rest is rounded away.  A position in a
    Python list is below 2^63, far within the range of float32. *)
Definition float32_of_Z (n : Z) : Z :=
  let e := Z.log2 n in
  if (e <? 24)%Z then n
  else
    let s := (e - 23)%Z in
    let q := Z.shiftr n s in
    let r := Z.land n (Z.ones s) in
    let half := Z.shiftl 1 (s - 1) in
    let q' := if (r <? half)%Z then q
              else if (half <? r)%Z then (q + 1)%Z
              else if Z.even q then q else (q + 1)%Z in
    Z.shiftl q' s.

(** [torch.Tensor(ids)]: a float32 tensor of the ids. *)
Definition torch_Tensor (ids : list nat) : tensor :=
  (λ id, float32_of_Z (Z.of_nat id)) <$> ids.

(** A 2-D tensor: its shape and its rows. *)
Record tensor2 : Type := {
  shape : nat * nat;
  cells : list (list Z)
}.

Definition rows (t : tensor2) : nat := (shape t).1.
Definition cols (t : tensor2) : nat := (shape t).2.

(** The entry [t[i, j]], when there is one. *)
Definition cell (t : tensor2) (i j : nat) : option Z :=
  row ← cells t !! i; row !! j.

(** [torch.zeros(n, m).long().fill_(v)]. *)
Definition full (n m : nat) (v : Z) : tensor2 :=
  {| shape := (n, m); cells := replicate n (replicate m v) |}.

(** Broadcasting a 1-D value to [n] entries: equal sizes, or one entry
    repeated. *)
Definition expand (v : tensor) (n : nat) : result tensor :=
  if decide (length v = n) then Ok v
  else match v with
       | [x] => Ok (replicate n x)
       | _ => Raise RuntimeError
       end.

(** [t[i, :stop] = v]: the slice covers the first [min stop cols] entries of
    row [i]. *)
Definition setitem_row_prefix (t : tensor2) (i stop : nat) (v : tensor)
    : result tensor2 :=
  match cells t !! i with
  | None => Raise IndexError
  | Some row =>
      let w := stop `min` cols t in
      v' ← expand v w;
      Ok {| shape := shape t; cells := <[i := v' ++ drop w row]> (cells t) |}
  end.

(** ** ParallelDataset *)

Record ParallelDataset : Type := {
  src_seqs : list string;
  trg_seqs : list string;
  num_total_seqs : nat;
  src_word2id : list string;
  trg_word2id : list string;
  pad_index : nat
}.

(** [ParallelDataset.preprocess]; [trg] is accepted and ignored, as in the
    code. *)
Definition preprocess (sequence : string) (word2id : list string)
    (trg : bool) : result tensor :=
  let tokens := Py.split sequence in
  bos ← Py.index word2id "<s>";
  ids ← mapM (Py.index word2id) tokens;
  eos ← Py.index word2id "</s>";
  Ok (torch_Tensor ([bos] ++ ids ++ [eos])).

(** [ParallelDataset.__getitem__]. *)
Definition ParallelDataset_getitem (self : ParallelDataset) (index : Z)
    : result (tensor * tensor) :=
  src_seq ← Py.getitem (src_seqs self) index;
  trg_seq ← Py.getitem (trg_seqs self) index;
  src_seq ← preprocess src_seq (src_word2id self) false;
  trg_seq ← preprocess trg_seq (trg_word2id self) true;
  Ok (src_seq, trg_seq).

(** [ParallelDataset.__len__]. *)
Definition ParallelDataset_len (self : ParallelDataset) : nat :=
  num_total_seqs self.

(** Why a path that exists cannot be read as text. *)
Inductive io_error : Type :=
  | permission_denied
  | is_a_directory
  | undecodable                   (* its bytes do not decode *)
  | os_error (errno : Z).         (* any other failure of the system *)

(** What the file system holds at a path: a text file, with the text
    [read()] returns, or something that cannot be read. *)
Inductive file : Type :=
  | Text (text : string)
  | Unreadable (why : io_error).

(** [open(path).read()]. *)
Definition open_read (files : gmap string file) (path : string)
    : result string :=
  match files !! path with
  | Some (Text text) => Ok text
  | Some (Unreadable permission_denied) => Raise (PermissionError path)
  | Some (Unreadable is_a_directory) => Raise (IsADirectoryError path)
  | Some (Unreadable undecodable) => Raise UnicodeDecodeError
  | Some (Unreadable (os_error errno)) => Raise (OSError errno)
  | None => Raise (FileNotFoundError path)
  end.

(** [ParallelDataset.__init__]. *)
Definition ParallelDataset_init (files : gmap string file)
    (src_path trg_path : string) (src_word2id trg_word2id : list string)
    : result ParallelDataset :=
  src_text ← open_read files src_path;
  trg_text ← open_read files trg_path;
  pad ← Py.index src_word2id "<pad>";
  Ok {| src_seqs := Py.splitlines src_text;
        trg_seqs := Py.splitlines trg_text;
        num_total_seqs := length (Py.splitlines src_text);
        src_word2id := src_word2id;
        trg_word2id := trg_word2id;
        pad_index := pad |}.

(** ** Program state *)

(** The address of a list object; the lists the loader handles hold
    (source, target) pairs. *)
Definition loc : Type := positive.

Record state : Type := {
  PAD_WORD : Z;                                   (* the module global *)
  heap : gmap loc (list (tensor * tensor))        (* the list objects *)
}.

(** [PAD_WORD = -1] at module level. *)
Definition PAD_WORD_default : Z := (-1)%Z.

Definition module_state : state :=
  {| PAD_WORD := PAD_WORD_default; heap := ∅ |}.

(** A computation that reads and writes the state and may raise; the state
    reached when an exception is raised is kept. *)
Definition M (A : Type) : Type := state → state * result A.

#[global] Instance M_ret : MRet M := λ A a st, (st, Ok a).
#[global] Instance M_bind : MBind M := λ A B f m st,
  match m st with
  | (st', Ok a) => f a st'
  | (st', Raise e) => (st', Raise e)
  end.

Definition lift {A} (r : result A) : M A := λ st, (st, r).

Definition read_PAD_WORD : M Z := λ st, (st, Ok (PAD_WORD st)).

Definition write_PAD_WORD (v : Z) : M unit := λ st,
  ({| PAD_WORD := v; heap := heap st |}, Ok ()).

(** Reading the list object behind a reference. *)
Definition read_list (l : loc) : M (list (tensor * tensor)) := λ st,
  match heap st !! l with
  | Some items => (st, Ok items)
  | None => (st, Raise AttributeError)
  end.

(** A new list object. *)
Definition new_list (items : list (tensor * tensor)) : M loc := λ st,
  let l := fresh (dom (heap st)) in
  ({| PAD_WORD := PAD_WORD st; heap := <[l := items]> (heap st) |}, Ok l).

(** ** list.sort *)

Section list_sort.
Context {A : Type} (key : A → nat).

(** [x] goes before the first element whose key is not smaller. *)
Fixpoint insert_by (x : A) (l : list A) : list A :=
  match l with
  | [] => [x]
  | y :: l' =>
      if decide (key x ≤ key y) then x :: y :: l' else y :: insert_by x l'
  end.

(** The stable ascending sort by [key]. *)
Definition sort_ascending (l : list A) : list A := foldr insert_by [] l.

(** The contents [l.sort(key=key, reverse=reversed)] leaves in [l]: the
    stable ascending sort, taken between two reversals when [reversed] is
    set. *)
Definition sorted_by (reversed : bool) (l : list A) : list A :=
  if reversed then reverse (sort_ascending (reverse l))
  else sort_ascending l.
End list_sort.

(** [l.sort(key=key, reverse=reversed)] on the list object at [l]. *)
Definition list_sort (l : loc) (key : tensor * tensor → nat) (reversed : bool)
    : M unit := λ st,
  match heap st !! l with
  | Some items =>
      ({| PAD_WORD := PAD_WORD st;
          heap := <[l := sorted_by key reversed items]> (heap st) |}, Ok ())
  | None => (st, Raise AttributeError)
  end.

(** Unpacking the transposed list, [a, b = zip( *items )], for a list of
    pairs: with no item there is nothing to bind [a] and [b] to. *)
Definition unpack_zip_star (items : list (tensor * tensor))
    : result (list tensor * list tensor) :=
  match items with
  | [] => Raise (ValueError not_enough_values)
  | _ => Ok (items.*1, items.*2)
  end.

(** ** parallel_collate_fn *)

(** The loop of [merge]: row [i] receives [seq[:end]] in its first [end]
    columns, for [i, seq] in [enumerate(sequences)] from [i] on. *)
Fixpoint merge_loop (lengths : list nat) (padded_seqs : tensor2) (i : nat)
    (sequences : list tensor) : result tensor2 :=
  match sequences with
  | [] => Ok padded_seqs
  | seq :: rest =>
      stop ← Py.getitem lengths (Z.of_nat i);
      padded_seqs' ← setitem_row_prefix padded_seqs i stop (take stop seq);
      merge_loop lengths padded_seqs' (S i) rest
  end.

(** The inner function [merge]. *)
Definition merge (sequences : list tensor) : M (tensor2 * list nat) :=
  let lengths := length <$> sequences in
  width ← lift (Py.max lengths);
  pad ← read_PAD_WORD;
  padded_seqs ← lift (merge_loop lengths
                        (full (length sequences) width pad) 0 sequences);
  mret (padded_seqs, lengths).

(** The sort key [lambda x: len(x[0])]. *)
Definition src_len (x : tensor * tensor) : nat := length x.1.

(** What [parallel_collate_fn] returns: [src_seqs, src_lengths, trg_seqs,
    trg_lengths]. *)
Definition batch : Type := tensor2 * list nat * tensor2 * list nat.

Definition parallel_collate_fn (data : loc) : M batch :=
  _ ← list_sort data src_len true;
  items ← read_list data;
  '(src_seqs, trg_seqs) ← lift (unpack_zip_star items);
  '(src_seqs, src_lengths) ← merge src_seqs;
  '(trg_seqs, trg_lengths) ← merge trg_seqs;
  mret (src_seqs, src_lengths, trg_seqs, trg_lengths).

(** ** torch.utils.data.DataLoader

    The part of the framework the factories rely on: a map-style dataset, a
    sampler giving the index order, batches of [batch_size] indices with the
    last one possibly shorter ([drop_last=False]), and, for each batch of
    indices, [collate_fn([dataset[i] for i in indices])]. *)

Module DataLoader.

(** [SequentialSampler]: the order [range(len(dataset))], used when
    [shuffle=False] and no sampler is given. *)
Definition SequentialSampler (n : nat) : list nat := seq 0 n.

(** [BatchSampler.__iter__]: [batch] holds the indices gathered so far. *)
Fixpoint BatchSampler_from (batch : list nat) (batch_size : nat)
    (sampler : list nat) : list (list nat) :=
  match sampler with
  | [] => match batch with [] => [] | _ => [batch] end
  | idx :: rest =>
      let batch' := batch ++ [idx] in
      if decide (length batch' = batch_size)
      then batch' :: BatchSampler_from [] batch_size rest
      else BatchSampler_from batch' batch_size rest
  end.

Definition BatchSampler (batch_size : nat) (sampler : list nat)
    : list (list nat) :=
  BatchSampler_from [] batch_size sampler.

Record t : Type := {
  dataset : ParallelDataset;
  batch_size : nat;
  sampler : list nat
}.

(** The constructor; a batch size that is not positive is refused. *)
Definition new (dataset : ParallelDataset) (batch_size : nat)
    (sampler : list nat) : result t :=
  if decide (batch_size = 0) then Raise (ValueError bad_batch_size)
  else Ok {| dataset := dataset; batch_size := batch_size;
             sampler := sampler |}.

(** The batches of indices one pass over the loader goes through. *)
Definition iter (dl : t) : list (list nat) :=
  BatchSampler (batch_size dl) (sampler dl).

(** Fetching one batch: the items are gathered in a new list, which is
    handed to the collate function. *)
Definition fetch (dl : t) (indices : list nat) : M batch :=
  items ← lift (mapM (λ i, ParallelDataset_getitem (dataset dl) (Z.of_nat i))
                  indices);
  data ← new_list items;
  parallel_collate_fn data.

(** One step of the iterator [it]: the next batch and the rest of the
    iterator, or [None] when the pass is over. *)
Definition next (dl : t) (it : list (list nat))
    : M (option batch * list (list nat)) :=
  match it with
  | [] => mret (None, [])
  | indices :: it' => b ← fetch dl indices; mret (Some b, it')
  end.

(** A whole pass: every batch in the order it is yielded. *)
Definition run (dl : t) : M (list batch) := mapM (fetch dl) (iter dl).

End DataLoader.

(** ** The loader factories *)

Section train_loader.
(** [DistributedSampler(dataset, num_replicas, rank)]: the index order
    the library assigns to this process, from the dataset length. *)
Variable DistributedSampler : nat → nat → nat → result (list nat).

Definition get_train_parallel_loader (files : gmap string file)
    (src_path trg_path : string) (src_word2id trg_word2id : list string)
    (batch_size world_size rank : nat) : M (DataLoader.t * list nat) :=
  dataset ← lift (ParallelDataset_init files src_path trg_path
                    src_word2id trg_word2id);
  pad ← lift (Py.index src_word2id "<pad>");
  _ ← write_PAD_WORD (Z.of_nat pad);
  sampler ← lift (DistributedSampler (ParallelDataset_len dataset)
                    world_size rank);
  data_loader ← lift (DataLoader.new dataset batch_size sampler);
  mret (data_loader, sampler).
End train_loader.

Definition get_valid_parallel_loader (files : gmap string file)
    (src_path trg_path : string) (src_word2id trg_word2id : list string)
    (batch_size : nat) : M DataLoader.t :=
  dataset ← lift (ParallelDataset_init files src_path trg_path
                    src_word2id trg_word2id);
  pad ← lift (Py.index src_word2id "<pad>");
  _ ← write_PAD_WORD (Z.of_nat pad);
  lift (DataLoader.new dataset batch_size
          (DataLoader.SequentialSampler (ParallelDataset_len dataset))).

(** ** The batch in closed form *)

(** A sequence followed by the pad value up to [width] entries. *)
Definition pad_row (width : nat) (pad : Z) (seq : tensor) : tensor :=
  seq ++ replicate (width - length seq) pad.

(** The grid of the sequences, each padded to the longest of them. *)
Definition padded_grid (pad : Z) (sequences : list tensor) : tensor2 :=
  let width := max_list (length <$> sequences) in
  {| shape := (length sequences, width);
     cells := pad_row width pad <$> sequences |}.

(** The rows of a grid cut back to the given lengths. *)
Definition unpad (t : tensor2) (lengths : list nat) : list tensor :=
  zip_with take lengths (cells t).

(** The (source, target) pairs a batch holds, row by row. *)
Definition batch_pairs (b : batch) : list (tensor * tensor) :=
  let '(src_seqs, src_lengths, trg_seqs, trg_lengths) := b in
  zip (unpad src_seqs src_lengths) (unpad trg_seqs trg_lengths).

(** The batch of a list of pairs taken in the order given. *)
Definition collated (pad : Z) (items : list (tensor * tensor)) : batch :=
  (padded_grid pad items.*1, length <$> items.*1,
   padded_grid pad items.*2, length <$> items.*2).

(** The length of the target of a pair. *)
Definition trg_len (x : tensor * tensor) : nat := length x.2.

(** ** Example data *)

(** Three pairs with source lengths 3, 5, 3 and target lengths 5, 3, 2, in
    a list object at address 1, with pad id 0. *)
Definition example_pairs : list (tensor * tensor) :=
  [([1; 3; 2], [1; 4; 4; 5; 2]); ([1; 3; 4; 5; 2], [1; 3; 2]);
   ([1; 5; 2], [1; 2])]%Z.

Definition example_state : state :=
  {| PAD_WORD := 0; heap := {[ 1%positive := example_pairs ]} |}.

(** The same pairs after the call: the longest source first, the two of
    length 3 in their first order. *)
Definition example_sorted : list (tensor * tensor) :=
  [([1; 3; 4; 5; 2], [1; 3; 2]); ([1; 3; 2], [1; 4; 4; 5; 2]);
   ([1; 5; 2], [1; 2])]%Z.

Definition example_state_after : state :=
  {| PAD_WORD := 0; heap := {[ 1%positive := example_sorted ]} |}.

Definition example_src_seqs : tensor2 :=
  {| shape := (3, 5);
     cells := [[1; 3; 4; 5; 2]; [1; 3; 2; 0; 0]; [1; 5; 2; 0; 0]]%Z |}.

Definition example_trg_seqs : tensor2 :=
  {| shape := (3, 5);
     cells := [[1; 3; 2; 0; 0]; [1; 4; 4; 5; 2]; [1; 2; 0; 0; 0]]%Z |}.

Definition example_batch : batch :=
  (example_src_seqs, [5; 3; 3], example_trg_seqs, [3; 5; 2]).

(** The vocabulary of the specification's encoding scenario. *)
Definition vocab : list string := ["<pad>"; "<s>"; "</s>"; "i"; "am"; "fine"].

(** Two pairs in a list object at address 1, in the state of a module
    whose factories have not run. *)
Definition unset_state : state :=
  {| PAD_WORD := PAD_WORD module_state;
     heap := {[ 1%positive := [([1; 2], [1; 3; 2]); ([1; 3; 2], [1; 2])]%Z ]} |}.

Definition unset_state_after : state :=
  {| PAD_WORD := PAD_WORD module_state;
     heap := {[ 1%positive := [([1; 3; 2], [1; 2]); ([1; 2], [1; 3; 2])]%Z ]} |}.

(** A text file of the given lines, each ended by a line feed. *)
Definition LF : string := String (ascii_of_nat 10) EmptyString.

Definition text_of_lines (lines : list string) : string :=
  foldr (λ line text, line +:+ LF +:+ text) EmptyString lines.

Definition example_src_lines : list string :=
  ["i am"; "fine"; "i am fine"; "i"; "am am am am"].

Definition example_trg_lines : list string :=
  ["am i"; "fine fine"; "i"; "i am fine"; "am"].

(** A corpus of five aligned pairs. *)
Definition example_files : gmap string file :=
  {[ "valid.src" := Text (text_of_lines example_src_lines);
     "valid.trg" := Text (text_of_lines example_trg_lines) ]}.

Definition example_dataset : ParallelDataset :=
  {| src_seqs := example_src_lines;
     trg_seqs := example_trg_lines;
     num_total_seqs := 5;
     src_word2id := vocab;
     trg_word2id := vocab;
     pad_index := 0 |}.

Definition example_loader : DataLoader.t :=
  {| DataLoader.dataset := example_dataset;
     DataLoader.batch_size := 2;
     DataLoader.sampler := [0; 1; 2; 3; 4] |}.

(** A corpus whose target file is one line short. *)
Definition misaligned_files : gmap string file :=
  {[ "train.src" := Text (text_of_lines ["i am"; "fine"]);
     "train.trg" := Text (text_of_lines ["am i"]) ]}.

Definition misaligned_dataset : ParallelDataset :=
  {| src_seqs := ["i am"; "fine"];
     trg_seqs := ["am i"];
     num_total_seqs := 2;
     src_word2id := vocab;
     trg_word2id := vocab;
     pad_index := 0 |}.

(** A corpus whose second source line has a token outside the vocabulary,
    and a loader over it. *)
Definition oov_dataset : ParallelDataset :=
  {| src_seqs := ["i am"; "i am well"];
     trg_seqs := ["am i"; "fine"];
     num_total_seqs := 2;
     src_word2id := vocab;
     trg_word2id := vocab;
     pad_index := 0 |}.

Definition oov_loader : DataLoader.t :=
  {| DataLoader.dataset := oov_dataset;
     DataLoader.batch_size := 2;
     DataLoader.sampler := [0; 1] |}.

(** ** Notions used by the further properties *)

(** The words [preprocess] looks up, in the order it looks them up. *)
Definition looked_up (line : string) : list string :=
  ["<s>"] ++ Py.split line ++ ["</s>"].

(** A string without any line boundary of [str.splitlines]. *)
Definition no_linebreak (s : string) : Prop :=
  Forall (λ c, Py.is_linebreak c = false) (list_ascii_of_string s).

(** The characters of a string that are no whitespace. *)
Definition without_spaces (s : string) : list ascii :=
  filter (λ c, Py.isspace c = false) (list_ascii_of_string s).

(** A dataset whose two line lists have the same length [n]. *)
Definition aligned (self : ParallelDataset) (n : nat) : Prop :=
  length (src_seqs self) = n ∧ length (trg_seqs self) = n.

(** Every word [preprocess] looks up for a line of the dataset is in the
    vocabulary of its side. *)
Definition in_vocabulary (self : ParallelDataset) : Prop :=
  Forall (λ line, Forall (λ w, w ∈ src_word2id self) (looked_up line))
    (src_seqs self) ∧
  Forall (λ line, Forall (λ w, w ∈ trg_word2id self) (looked_up line))
    (trg_seqs self).


(** * Properties *)

(** ** The definitions on small inputs *)

Example split_skips_runs_of_whitespace :
  Py.split "  i am   fine " = ["i"; "am"; "fine"].
Proof. reflexivity. Qed.

Example splitlines_of_text :
  Py.splitlines (text_of_lines ["i am"; EmptyString; "fine"])
  = ["i am"; EmptyString; "fine"].
Proof. reflexivity. Qed.

Example index_is_first_position :
  Py.index ["a"; "b"; "a"] "a" = Ok 0 ∧
  Py.index ["a"; "b"; "a"] "c" = Raise (ValueError (not_in_list "c")).
Proof. by vm_compute. Qed.

Example getitem_counts_from_the_end :
  Py.getitem [10; 20; 30] (-1) = Ok 30 ∧
  Py.getitem [10; 20; 30] 3 = Raise IndexError ∧
  Py.getitem [10; 20; 30] (-4) = Raise IndexError.
Proof. by vm_compute. Qed.

(** float32 keeps every integer up to 2^24 and every second one after it,
    a tie going to the even significand. *)
Example float32_of_Z_values :
  float32_of_Z 16777216 = 16777216%Z ∧
  float32_of_Z 16777217 = 16777216%Z ∧
  float32_of_Z 16777218 = 16777218%Z ∧
  float32_of_Z 16777219 = 16777220%Z.
Proof. by vm_compute. Qed.

Example open_read_failures :
  open_read {[ "a" := Text "i am"; "d" := Unreadable is_a_directory ]} "a"
    = Ok "i am" ∧
  open_read {[ "a" := Text "i am"; "d" := Unreadable is_a_directory ]} "d"
    = Raise (IsADirectoryError "d") ∧
  open_read {[ "a" := Text "i am"; "d" := Unreadable is_a_directory ]} "b"
    = Raise (FileNotFoundError "b").
Proof. by vm_compute. Qed.

Example sort_keeps_equal_keys_in_order :
  sorted_by src_len true example_pairs = example_sorted.
Proof. by vm_compute. Qed.

(** Two sources of lengths 5 and 3 give a grid of shape (2, 5) whose second
    row ends in two pads, with [src_lengths = [5, 3]]. *)
Example collate_lengths_5_and_3 :
  parallel_collate_fn 1%positive
    {| PAD_WORD := 0;
       heap := {[ 1%positive :=
                    [([1; 3; 2], [1; 2]); ([1; 3; 4; 5; 2], [1; 2])]%Z ]} |}
  = ({| PAD_WORD := 0;
        heap := {[ 1%positive :=
                     [([1; 3; 4; 5; 2], [1; 2]); ([1; 3; 2], [1; 2])]%Z ]} |},
     Ok ({| shape := (2, 5);
            cells := [[1; 3; 4; 5; 2]; [1; 3; 2; 0; 0]]%Z |}, [5; 3],
         {| shape := (2, 2); cells := [[1; 2]; [1; 2]]%Z |}, [2; 2])).
Proof. by vm_compute. Qed.

Example collate_of_no_item :
  parallel_collate_fn 1%positive
    {| PAD_WORD := 0; heap := {[ 1%positive := [] ]} |}
  = ({| PAD_WORD := 0; heap := {[ 1%positive := [] ]} |},
     Raise (ValueError not_enough_values)).
Proof. by vm_compute. Qed.

(** ** The error monad *)

Lemma mapM_Ok {A B} (f : A → result B) (l : list A) (k : list B) :
  Forall2 (λ a b, f a = Ok b) l k → mapM f l = Ok k.
Proof.
  induction 1 as [|a b l k Hab _ IH]; [done|].
  cbn. rewrite Hab. cbn. by rewrite IH.
Qed.

Lemma mapM_Ok_inv {A B} (f : A → result B) (l : list A) (k : list B) :
  mapM f l = Ok k → Forall2 (λ a b, f a = Ok b) l k.
Proof.
  revert k. induction l as [|a l IH]; intros k; cbn.
  - intros [= <-]. constructor.
  - destruct (f a) as [b|e] eqn:Hfa; cbn; [|done].
    destruct (mapM f l) as [k'|e]; cbn; [|done].
    intros [= <-]. constructor; auto.
Qed.

(** A failing element makes the whole traversal fail, with the exception of
    the first element that fails. *)
Lemma mapM_Raise {A B} (f : A → result B) (l : list A) :
  Exists (λ a, ∃ e, f a = Raise e) l →
  ∃ a e, a ∈ l ∧ f a = Raise e ∧ mapM f l = Raise e.
Proof.
  induction l as [|a l IH]; intros Hex; [by inversion Hex|].
  cbn. destruct (f a) as [b|e] eqn:Hfa.
  - inversion Hex as [?? (e & He)|?? Hex']; subst; [congruence|].
    destruct (IH Hex') as (a' & e & Hin & Ha' & ->).
    exists a', e. split_and!; [by right|done|done].
  - exists a, e. split_and!; [by left|done|done].
Qed.

(** ** list.index *)

Lemma index_Ok (l : list string) (x : string) :
  x ∈ l → ∃ i, Py.index l x = Ok i ∧ l !! i = Some x.
Proof.
  intros Hin. unfold Py.index.
  destruct (list_find (λ y, y = x) l) as [[i y]|] eqn:Hfind.
  - apply list_find_Some in Hfind as (Hi & -> & _). eauto.
  - apply list_find_None in Hfind.
    rewrite Forall_forall in Hfind. by destruct (Hfind x Hin).
Qed.

Lemma index_Raise (l : list string) (x : string) :
  x ∉ l → Py.index l x = Raise (ValueError (not_in_list x)).
Proof.
  intros Hnin. unfold Py.index.
  destruct (list_find (λ y, y = x) l) as [[i y]|] eqn:Hfind; [|done].
  apply list_find_Some in Hfind as (Hi & -> & _).
  destruct Hnin. by eapply list_elem_of_lookup_2.
Qed.

Lemma index_all_Ok (l : list string) (tokens : list string) :
  Forall (λ tok, tok ∈ l) tokens →
  ∃ ids, Forall2 (λ tok id, Py.index l tok = Ok id ∧ l !! id = Some tok)
           tokens ids.
Proof.
  induction 1 as [|tok tokens Hin _ (ids & IH)]; [by exists []|].
  destruct (index_Ok l tok Hin) as (i & Hi & Hl).
  exists (i :: ids). by constructor.
Qed.

(** ** float32 *)

(** The integers up to 2^24 are float32 values. *)
Lemma float32_of_Z_exact (n : Z) :
  (n ≤ 16777216)%Z → float32_of_Z n = n.
Proof.
  intros Hn. destruct (decide (n = 16777216)%Z) as [->|Hne]; [done|].
  unfold float32_of_Z.
  destruct (Z.ltb_spec (Z.log2 n) 24) as [_|Hlog]; [done|].
  destruct (decide (0 < n)%Z) as [Hpos|Hneg].
  - apply Z.log2_lt_pow2 with (b := 24%Z) in Hpos. lia.
  - rewrite Z.log2_nonpos in Hlog by lia. lia.
Qed.

Lemma index_Ok_lt (l : list string) (x : string) (i : nat) :
  Py.index l x = Ok i → i < length l.
Proof.
  unfold Py.index.
  destruct (list_find (λ y, y = x) l) as [[i' y]|] eqn:Hfind; [|done].
  intros [= <-]. apply list_find_Some in Hfind as (Hi & _).
  by eapply lookup_lt_Some.
Qed.

(** The ids of a vocabulary of at most 2^24 + 1 words are stored as they
    are. *)
Lemma torch_Tensor_exact (word2id words : list string) (ids : list nat) :
  (Z.of_nat (length word2id) ≤ 16777217)%Z →
  Forall2 (λ w id, Py.index word2id w = Ok id) words ids →
  torch_Tensor ids = Z.of_nat <$> ids.
Proof.
  intros Hsize Hids. unfold torch_Tensor.
  apply Forall_fmap_ext_1, Forall_forall. intros id Hin.
  apply list_elem_of_lookup in Hin as [k Hk].
  destruct (Forall2_lookup_r _ _ _ _ _ Hids Hk) as (w & _ & Hw).
  apply index_Ok_lt in Hw. apply float32_of_Z_exact. lia.
Qed.

(** ** preprocess *)


Lemma preprocess_Raise (line : string) (word2id : list string) (trg : bool) :
  Exists (λ tok, tok ∉ word2id) (Py.split line) →
  ∃ w, (w ∉ word2id) ∧
       preprocess line word2id trg = Raise (ValueError (not_in_list w)).
Proof.
  intros Hex. unfold preprocess.
  destruct (decide ("<s>" ∈ word2id)) as [Hbos|Hbos].
  - destruct (index_Ok _ _ Hbos) as (bos & -> & _). cbn.
    destruct (mapM_Raise (Py.index word2id) (Py.split line))
      as (w & e & Hin & Hw & ->).
    { eapply Exists_impl; [exact Hex|]. cbn. intros w Hw.
      rewrite (index_Raise _ _ Hw). eauto. }
    cbn. destruct (decide (w ∈ word2id)) as [Hw'|Hw'].
    + destruct (index_Ok _ _ Hw') as (? & ? & _). congruence.
    + exists w. rewrite (index_Raise _ _ Hw') in Hw. by injection Hw as <-.
  - exists "<s>". by rewrite (index_Raise _ _ Hbos).
Qed.













(** ** list.sort *)

Section list_sort_facts.
Context {A : Type} (key : A → nat).

Lemma insert_by_Permutation (x : A) (l : list A) :
  insert_by key x l ≡ₚ x :: l.
Proof.
  induction l as [|y l IH]; cbn; [done|].
  case_decide; [done|]. rewrite IH. apply Permutation_swap.
Qed.

Lemma sort_ascending_Permutation (l : list A) : sort_ascending key l ≡ₚ l.
Proof.
  induction l as [|x l IH]; [done|].
  change (sort_ascending key (x :: l))
    with (insert_by key x (sort_ascending key l)).
  by rewrite insert_by_Permutation, IH.
Qed.

Lemma insert_by_sorted (x : A) (l : list A) :
  StronglySorted (λ a b, key a ≤ key b) l →
  StronglySorted (λ a b, key a ≤ key b) (insert_by key x l).
Proof.
  induction 1 as [|y l Hl IH Hy]; cbn.
  - repeat constructor.
  - case_decide as Hxy.
    + constructor; [by constructor|].
      constructor; [done|].
      eapply Forall_impl; [exact Hy|]. cbn. lia.
    + constructor; [done|].
      rewrite insert_by_Permutation. constructor; [lia|done].
Qed.

Lemma sort_ascending_sorted (l : list A) :
  StronglySorted (λ a b, key a ≤ key b) (sort_ascending key l).
Proof.
  induction l as [|x l IH]; [constructor|]. by apply insert_by_sorted.
Qed.

(** Insertion leaves the elements of each key in their order, the new
    element first among its equals. *)
Lemma filter_insert_by (k : nat) (x : A) (l : list A) :
  filter (λ a, key a = k) (insert_by key x l)
  = filter (λ a, key a = k) (x :: l).
Proof.
  induction l as [|y l IH]; cbn; [done|].
  case_decide as Hxy; [done|].
  rewrite filter_cons, IH, !filter_cons.
  repeat case_decide; first [done | lia].
Qed.

Lemma filter_sort_ascending (k : nat) (l : list A) :
  filter (λ a, key a = k) (sort_ascending key l)
  = filter (λ a, key a = k) l.
Proof.
  induction l as [|x l IH]; [done|].
  change (sort_ascending key (x :: l))
    with (insert_by key x (sort_ascending key l)).
  by rewrite filter_insert_by, !filter_cons, IH.
Qed.

Lemma StronglySorted_reverse (R : relation A) (l : list A) :
  StronglySorted R l → StronglySorted (flip R) (reverse l).
Proof.
  induction 1 as [|x l Hl IH Hx]; [constructor|].
  rewrite reverse_cons. apply StronglySorted_app_2; [|done|repeat constructor].
  intros a b Ha Hb. apply list_elem_of_singleton in Hb as ->.
  rewrite elem_of_reverse in Ha. rewrite Forall_forall in Hx. by apply Hx.
Qed.

(** What [sort(key=key, reverse=True)] leaves: the same items, keys
    descending, equal keys in their original order. *)
Lemma sorted_by_reverse_Permutation (l : list A) : sorted_by key true l ≡ₚ l.
Proof.
  unfold sorted_by. by rewrite reverse_Permutation,
    sort_ascending_Permutation, reverse_Permutation.
Qed.

Lemma sorted_by_reverse_sorted (l : list A) :
  StronglySorted (λ a b, key b ≤ key a) (sorted_by key true l).
Proof.
  unfold sorted_by. apply (StronglySorted_reverse (λ a b, key a ≤ key b)).
  apply sort_ascending_sorted.
Qed.

Lemma sorted_by_reverse_stable (k : nat) (l : list A) :
  filter (λ a, key a = k) (sorted_by key true l)
  = filter (λ a, key a = k) l.
Proof.
  unfold sorted_by.
  rewrite filter_reverse, filter_sort_ascending, filter_reverse.
  apply reverse_involutive.
Qed.

Lemma sorted_by_nil_inv (reversed : bool) (l : list A) :
  sorted_by key reversed l = [] → l = [].
Proof.
  intros Hnil. apply Permutation_nil_r.
  destruct reversed.
  - by rewrite <-(sorted_by_reverse_Permutation l), Hnil.
  - unfold sorted_by in Hnil.
    by rewrite <-(sort_ascending_Permutation l), Hnil.
Qed.

Lemma StronglySorted_lookup_le (f : A → nat) (l : list A) (i j : nat)
    (a b : A) :
  StronglySorted (λ a b, f b ≤ f a) l →
  i < j → l !! i = Some a → l !! j = Some b → f b ≤ f a.
Proof.
  intros Hl. revert i j. induction Hl as [|x l Hl IH Hx]; intros i j Hij.
  - by rewrite lookup_nil.
  - destruct j as [|j]; [lia|]. destruct i as [|i]; cbn.
    + intros [= <-] Hb. rewrite Forall_forall in Hx.
      apply Hx. by eapply list_elem_of_lookup_2.
    + apply IH. lia.
Qed.
End list_sort_facts.

(** ** merge *)

Lemma getitem_nat {A} (l : list A) (i : nat) (a : A) :
  l !! i = Some a → Py.getitem l (Z.of_nat i) = Ok a.
Proof.
  intros Hi. unfold Py.getitem.
  destruct (Z.ltb_spec (Z.of_nat i) 0) as [?|_]; [lia|].
  destruct (Z.ltb_spec (Z.of_nat i) 0) as [?|_]; [lia|].
  by rewrite Nat2Z.id, Hi.
Qed.

Lemma getitem_nat_out {A} (l : list A) (i : nat) :
  length l ≤ i → Py.getitem l (Z.of_nat i) = Raise IndexError.
Proof.
  intros Hi. unfold Py.getitem.
  destruct (Z.ltb_spec (Z.of_nat i) 0) as [?|_]; [lia|].
  destruct (Z.ltb_spec (Z.of_nat i) 0) as [?|_]; [lia|].
  by rewrite Nat2Z.id, lookup_ge_None_2.
Qed.

Lemma max_foldl (n : nat) (l : list nat) :
  foldl Nat.max n l = n `max` max_list l.
Proof.
  revert n. induction l as [|m l IH]; intros n; cbn; [lia|].
  rewrite IH. lia.
Qed.

Lemma max_Ok (l : list nat) : l ≠ [] → Py.max l = Ok (max_list l).
Proof. destruct l as [|n l]; [done|]. intros _. cbn. by rewrite max_foldl. Qed.

Lemma max_list_Permutation (l k : list nat) : l ≡ₚ k → max_list l = max_list k.
Proof. induction 1; cbn; lia. Qed.

(** Writing a whole sequence over the start of a row that is long enough. *)
Lemma setitem_row_prefix_whole (sh : nat * nat) (above below : list (list Z))
    (row : list Z) (seq : tensor) :
  length seq ≤ sh.2 →
  setitem_row_prefix {| shape := sh; cells := above ++ row :: below |}
    (length above) (length seq) (take (length seq) seq)
  = Ok {| shape := sh;
          cells := above ++ (seq ++ drop (length seq) row) :: below |}.
Proof.
  intros Hle. unfold setitem_row_prefix, cols. cbn.
  rewrite list_lookup_middle by done.
  rewrite Nat.min_l by done. rewrite firstn_all.
  unfold expand. rewrite decide_True by done. cbn.
  do 2 f_equal.
  replace (length above) with (length above + 0) by lia.
  by rewrite insert_app_r.
Qed.

(** The loop, from the row it has reached: the rows [above] are done, the
    rows [below] still hold what they were allocated with. *)
Lemma merge_loop_from (sh : nat * nat) (done_seqs sequences : list tensor)
    (above below : list (list Z)) :
  length above = length done_seqs →
  Forall2 (λ (seq : tensor) (row : list Z), length seq ≤ sh.2)
    sequences below →
  merge_loop (length <$> (done_seqs ++ sequences))
    {| shape := sh; cells := above ++ below |} (length done_seqs) sequences
  = Ok {| shape := sh;
          cells := above
                   ++ zip_with (λ seq row, seq ++ drop (length seq) row)
                        sequences below |}.
Proof.
  intros Habove Hrows. revert done_seqs above Habove.
  induction Hrows as [|seq row sequences below Hle _ IH];
    intros done_seqs above Habove; [done|].
  cbn [merge_loop].
  rewrite (getitem_nat _ _ (length seq)).
  2:{ rewrite list_lookup_fmap, list_lookup_middle; done. }
  cbn. rewrite <-Habove, setitem_row_prefix_whole by done. cbn.
  specialize (IH (done_seqs ++ [seq])
                (above ++ [seq ++ drop (length seq) row])).
  rewrite !length_app in IH. cbn [length] in IH.
  rewrite <-!(assoc_L (++)) in IH. cbn in IH.
  rewrite !Nat.add_1_r in IH. rewrite Habove. apply IH. lia.
Qed.

(** [merge] on at least one sequence: it changes no state and returns the
    padded grid with the true lengths. *)
Lemma merge_spec (sequences : list tensor) (st : state) :
  sequences ≠ [] →
  merge sequences st
  = (st, Ok (padded_grid (PAD_WORD st) sequences, length <$> sequences)).
Proof.
  intros Hne. unfold merge, mbind, M_bind, lift, read_PAD_WORD.
  rewrite max_Ok by (by destruct sequences).
  pose proof (merge_loop_from
    (length sequences, max_list (length <$> sequences)) [] sequences []
    (replicate (length sequences)
       (replicate (max_list (length <$> sequences)) (PAD_WORD st)))) as Hloop.
  cbn in Hloop. unfold full. rewrite Hloop; [|done|].
  - unfold mret, M_ret, padded_grid. do 4 f_equal.
    rewrite zip_with_replicate_r_eq by done.
    apply list_fmap_ext. intros i seq _. cbn.
    by rewrite drop_replicate.
  - apply Forall2_same_length_lookup_2.
    + by rewrite length_replicate.
    + intros i seq row Hseq _. apply max_list_elem_of_le.
      apply list_elem_of_lookup. exists i.
      by apply (list_lookup_fmap_Some_2 length).
Qed.

Lemma merge_nil (st : state) :
  merge [] st = (st, Raise (ValueError max_of_empty)).
Proof. done. Qed.

(** ** parallel_collate_fn *)

(** One call, in closed form: the list object is sorted in place, and the
    batch is that of the sorted list unless the list has no item. *)
Lemma parallel_collate_fn_run (data : loc) (st : state)
    (l : list (tensor * tensor)) :
  heap st !! data = Some l →
  parallel_collate_fn data st
  = ({| PAD_WORD := PAD_WORD st;
        heap := <[data := sorted_by src_len true l]> (heap st) |},
     match sorted_by src_len true l with
     | [] => Raise (ValueError not_enough_values)
     | _ => Ok (collated (PAD_WORD st) (sorted_by src_len true l))
     end).
Proof.
  intros Hdata. unfold parallel_collate_fn, mbind, M_bind, list_sort, read_list.
  rewrite Hdata. cbn [heap PAD_WORD]. rewrite lookup_insert_eq.
  destruct (sorted_by src_len true l) as [|x l'] eqn:Hsorted; [done|].
  unfold lift, unpack_zip_star.
  rewrite !merge_spec by done. done.
Qed.

Lemma parallel_collate_fn_no_list (data : loc) (st : state) :
  heap st !! data = None →
  parallel_collate_fn data st = (st, Raise AttributeError).
Proof.
  intros Hdata. unfold parallel_collate_fn, mbind, M_bind, list_sort.
  by rewrite Hdata.
Qed.

(** What a call leaves in the state and returns, when it returns. *)
Lemma parallel_collate_fn_Ok (data : loc) (st st' : state)
    (l : list (tensor * tensor)) (b : batch) :
  heap st !! data = Some l →
  parallel_collate_fn data st = (st', Ok b) →
  ∃ l' : list (tensor * tensor),
    l' = sorted_by src_len true l ∧ l ≠ [] ∧
    st' = {| PAD_WORD := PAD_WORD st; heap := <[data := l']> (heap st) |} ∧
    b = collated (PAD_WORD st) l'.
Proof.
  intros Hdata. rewrite (parallel_collate_fn_run _ _ _ Hdata).
  destruct (sorted_by src_len true l) as [|x l'] eqn:Hsorted; [done|].
  intros [= <- <-]. exists (x :: l'). split_and!; [done| |done|done].
  intros ->. by vm_compute in Hsorted.
Qed.

(** ** Padded grids *)

Lemma pad_row_lookup_seq (width : nat) (pad : Z) (seq : tensor) (j : nat) :
  j < length seq → pad_row width pad seq !! j = seq !! j.
Proof. intros Hj. unfold pad_row. by rewrite lookup_app_l. Qed.

Lemma pad_row_lookup_pad (width : nat) (pad : Z) (seq : tensor) (j : nat) :
  length seq ≤ j → j < width → pad_row width pad seq !! j = Some pad.
Proof.
  intros Hj Hw. unfold pad_row. rewrite lookup_app_r by done.
  apply lookup_replicate_2. lia.
Qed.

Lemma rows_padded_grid (pad : Z) (sequences : list tensor) :
  rows (padded_grid pad sequences) = length sequences.
Proof. done. Qed.

Lemma cols_padded_grid (pad : Z) (sequences : list tensor) :
  cols (padded_grid pad sequences) = max_list (length <$> sequences).
Proof. done. Qed.

Lemma length_cells_padded_grid (pad : Z) (sequences : list tensor) :
  length (cells (padded_grid pad sequences)) = length sequences.
Proof. unfold padded_grid. cbn. by rewrite length_fmap. Qed.

Lemma cell_padded_grid (pad : Z) (sequences : list tensor) (i j : nat)
    (seq : tensor) :
  sequences !! i = Some seq →
  cell (padded_grid pad sequences) i j
  = pad_row (max_list (length <$> sequences)) pad seq !! j.
Proof.
  intros Hi. unfold cell, padded_grid. cbn.
  by rewrite list_lookup_fmap, Hi.
Qed.

Lemma length_le_max_list (sequences : list tensor) (i : nat) (seq : tensor) :
  sequences !! i = Some seq → length seq ≤ max_list (length <$> sequences).
Proof.
  intros Hi. apply max_list_elem_of_le, list_elem_of_lookup.
  exists i. by apply (list_lookup_fmap_Some_2 length).
Qed.

Lemma unpad_pad_rows (width : nat) (pad : Z) (sequences : list tensor) :
  zip_with take (length <$> sequences) (pad_row width pad <$> sequences)
  = sequences.
Proof.
  induction sequences as [|seq sequences IH]; [done|].
  cbn. rewrite IH. f_equal. unfold pad_row. apply take_app_length.
Qed.

Lemma unpad_padded_grid (pad : Z) (sequences : list tensor) :
  unpad (padded_grid pad sequences) (length <$> sequences) = sequences.
Proof. apply unpad_pad_rows. Qed.

Lemma batch_pairs_collated (pad : Z) (items : list (tensor * tensor)) :
  batch_pairs (collated pad items) = items.
Proof.
  unfold batch_pairs, collated.
  rewrite !unpad_padded_grid. apply zip_fst_snd.
Qed.

(** ** The batches of parallel_collate_fn *)

(** C1.  In a batch returned by [parallel_collate_fn]: both grids have one
    row per input pair; the column count of each grid is the greatest length
    on its own side of the batch; and row [i], which belongs to the pair the
    call left at position [i] of the list, holds the ids of the sequence in
    its first columns, within the column count, and the pad value in every
    column after them, on the source side and on the target side alike. *)
Theorem collate_grids_padded (data : loc) (st st' : state)
    (l : list (tensor * tensor)) (src_seqs trg_seqs : tensor2)
    (src_lengths trg_lengths : list nat) :
  heap st !! data = Some l →
  parallel_collate_fn data st
    = (st', Ok (src_seqs, src_lengths, trg_seqs, trg_lengths)) →
  (rows src_seqs = length l ∧ length (cells src_seqs) = length l ∧
   length src_lengths = length l) ∧
  (rows trg_seqs = length l ∧ length (cells trg_seqs) = length l ∧
   length trg_lengths = length l) ∧
  cols src_seqs = max_list (src_len <$> l) ∧
  cols trg_seqs = max_list (trg_len <$> l) ∧
  ∃ l' : list (tensor * tensor),
    heap st' !! data = Some l' ∧ l' ≡ₚ l ∧
    ∀ (i : nat) (src trg : tensor),
      l' !! i = Some (src, trg) →
      (src_lengths !! i = Some (length src) ∧
       length src ≤ cols src_seqs ∧
       (∀ j, j < length src → cell src_seqs i j = src !! j) ∧
       (∀ j, length src ≤ j → j < cols src_seqs →
             cell src_seqs i j = Some (PAD_WORD st))) ∧
      (trg_lengths !! i = Some (length trg) ∧
       length trg ≤ cols trg_seqs ∧
       (∀ j, j < length trg → cell trg_seqs i j = trg !! j) ∧
       (∀ j, length trg ≤ j → j < cols trg_seqs →
             cell trg_seqs i j = Some (PAD_WORD st))).
Proof.
  intros Hdata Hrun.
  destruct (parallel_collate_fn_Ok _ _ _ _ _ Hdata Hrun)
    as (l' & Hl' & Hne & -> & Hb).
  assert (l' ≡ₚ l) as Hperm
    by (rewrite Hl'; apply sorted_by_reverse_Permutation).
  assert (length l' = length l) as Hlen by by rewrite Hperm.
  clear Hl' Hrun. unfold collated in Hb. injection Hb as -> -> -> ->.
  rewrite !rows_padded_grid, !cols_padded_grid, !length_cells_padded_grid.
  rewrite !length_fmap, Hlen.
  split_and!; try done.
  - apply max_list_Permutation.
    rewrite <-list_fmap_compose. by apply fmap_Permutation.
  - apply max_list_Permutation.
    rewrite <-list_fmap_compose. by apply fmap_Permutation.
  - exists l'. split_and!; [apply lookup_insert_eq|done|].
    intros i src trg Hi.
    assert (l'.*1 !! i = Some src) as Hsrc
      by by apply (list_lookup_fmap_Some_2 fst _ _ (src, trg)).
    assert (l'.*2 !! i = Some trg) as Htrg
      by by apply (list_lookup_fmap_Some_2 snd _ _ (src, trg)).
    pose proof (length_le_max_list _ _ _ Hsrc) as Hsw.
    pose proof (length_le_max_list _ _ _ Htrg) as Htw.
    split; (split_and!; [..|]).
    + by apply (list_lookup_fmap_Some_2 length).
    + done.
    + intros j Hj.
      rewrite (cell_padded_grid _ _ _ _ _ Hsrc).
      by apply pad_row_lookup_seq.
    + intros j Hj Hw.
      rewrite (cell_padded_grid _ _ _ _ _ Hsrc).
      by apply pad_row_lookup_pad.
    + by apply (list_lookup_fmap_Some_2 length).
    + done.
    + intros j Hj.
      rewrite (cell_padded_grid _ _ _ _ _ Htrg).
      by apply pad_row_lookup_seq.
    + intros j Hj Hw.
      rewrite (cell_padded_grid _ _ _ _ _ Htrg).
      by apply pad_row_lookup_pad.
Qed.

Lemma collate_grids_padded_witness :
  (rows example_src_seqs = length example_pairs ∧
   length (cells example_src_seqs) = length example_pairs ∧
   length [5; 3; 3] = length example_pairs) ∧
  (rows example_trg_seqs = length example_pairs ∧
   length (cells example_trg_seqs) = length example_pairs ∧
   length [3; 5; 2] = length example_pairs) ∧
  cols example_src_seqs = max_list (src_len <$> example_pairs) ∧
  cols example_trg_seqs = max_list (trg_len <$> example_pairs) ∧
  ∃ l' : list (tensor * tensor),
    heap example_state_after !! 1%positive = Some l' ∧ l' ≡ₚ example_pairs ∧
    ∀ (i : nat) (src trg : tensor),
      l' !! i = Some (src, trg) →
      ([5; 3; 3] !! i = Some (length src) ∧
       length src ≤ cols example_src_seqs ∧
       (∀ j, j < length src → cell example_src_seqs i j = src !! j) ∧
       (∀ j, length src ≤ j → j < cols example_src_seqs →
             cell example_src_seqs i j = Some (PAD_WORD example_state))) ∧
      ([3; 5; 2] !! i = Some (length trg) ∧
       length trg ≤ cols example_trg_seqs ∧
       (∀ j, j < length trg → cell example_trg_seqs i j = trg !! j) ∧
       (∀ j, length trg ≤ j → j < cols example_trg_seqs →
             cell example_trg_seqs i j = Some (PAD_WORD example_state))).
Proof.
  apply (collate_grids_padded 1%positive example_state example_state_after
           example_pairs example_src_seqs example_trg_seqs
           [5; 3; 3] [3; 5; 2]).
  - reflexivity.
  - vm_compute. reflexivity.
Defined.

(** C2.  Given a list with at least one pair, [parallel_collate_fn] returns
    a batch whose rows are the pairs of the list in some order, the one the
    list object is left in: row [i] of the source grid is the source of the
    pair at [i], [src_lengths] holds the lengths of these sources, and these
    lengths never increase from one row to the next. *)
Theorem collate_rows_descending (data : loc) (st : state)
    (l : list (tensor * tensor)) :
  heap st !! data = Some l →
  l ≠ [] →
  ∃ (st' : state) (src_seqs trg_seqs : tensor2)
    (src_lengths trg_lengths : list nat) (l' : list (tensor * tensor)),
    parallel_collate_fn data st
      = (st', Ok (src_seqs, src_lengths, trg_seqs, trg_lengths)) ∧
    heap st' !! data = Some l' ∧ l' ≡ₚ l ∧
    src_lengths = src_len <$> l' ∧
    length src_lengths = length l ∧
    (∀ (i : nat) (src trg : tensor),
       l' !! i = Some (src, trg) →
       cells src_seqs !! i
       = Some (pad_row (cols src_seqs) (PAD_WORD st) src)) ∧
    ∀ (i j a b : nat),
      i < j → src_lengths !! i = Some a → src_lengths !! j = Some b → b ≤ a.
Proof.
  intros Hdata Hne. rewrite (parallel_collate_fn_run _ _ _ Hdata).
  pose proof (sorted_by_reverse_sorted src_len l) as Hsorted.
  pose proof (sorted_by_reverse_Permutation src_len l) as Hperm.
  destruct (sorted_by src_len true l) as [|x l'] eqn:Hl'.
  { by apply sorted_by_nil_inv in Hl'. }
  clear Hl'. set (items := x :: l') in *. clearbody items.
  eexists _, _, _, _, _, items. split; [reflexivity|].
  split_and!.
  - apply lookup_insert_eq.
  - done.
  - by rewrite <-list_fmap_compose.
  - by rewrite !length_fmap, Hperm.
  - intros i src trg Hi. rewrite cols_padded_grid.
    unfold padded_grid. cbn [cells]. by rewrite !list_lookup_fmap, Hi.
  - intros i j a b Hij. rewrite <-list_fmap_compose, !list_lookup_fmap.
    destruct (items !! i) as [p|] eqn:Hi; [|done].
    destruct (items !! j) as [q|] eqn:Hj; [|done].
    cbn. intros [= <-] [= <-].
    by apply (StronglySorted_lookup_le src_len items i j).
Qed.

Lemma collate_rows_descending_witness :
  ∃ (st' : state) (src_seqs trg_seqs : tensor2)
    (src_lengths trg_lengths : list nat) (l' : list (tensor * tensor)),
    parallel_collate_fn 1%positive example_state
      = (st', Ok (src_seqs, src_lengths, trg_seqs, trg_lengths)) ∧
    heap st' !! 1%positive = Some l' ∧ l' ≡ₚ example_pairs ∧
    src_lengths = src_len <$> l' ∧
    length src_lengths = length example_pairs ∧
    (∀ (i : nat) (src trg : tensor),
       l' !! i = Some (src, trg) →
       cells src_seqs !! i
       = Some (pad_row (cols src_seqs) (PAD_WORD example_state) src)) ∧
    ∀ (i j a b : nat),
      i < j → src_lengths !! i = Some a → src_lengths !! j = Some b → b ≤ a.
Proof.
  apply (collate_rows_descending 1%positive example_state example_pairs).
  - reflexivity.
  - discriminate.
Defined.

(** C4.  The pairs a returned batch holds, source row [i] with target row
    [i], are the input pairs in the order of the descending sort on source
    length, which is also the order the list object is left in: both grids
    and both length lists follow it, the target side is not sorted on its
    own, and every row pair is one of the input pairs. *)
Theorem collate_rows_paired (data : loc) (st st' : state)
    (l : list (tensor * tensor)) (src_seqs trg_seqs : tensor2)
    (src_lengths trg_lengths : list nat) :
  heap st !! data = Some l →
  parallel_collate_fn data st
    = (st', Ok (src_seqs, src_lengths, trg_seqs, trg_lengths)) →
  batch_pairs (src_seqs, src_lengths, trg_seqs, trg_lengths)
    = sorted_by src_len true l ∧
  heap st' !! data = Some (sorted_by src_len true l) ∧
  ∀ (i : nat) (src trg : tensor),
    sorted_by src_len true l !! i = Some (src, trg) →
    (src, trg) ∈ l ∧
    cells src_seqs !! i = Some (pad_row (cols src_seqs) (PAD_WORD st) src) ∧
    src_lengths !! i = Some (length src) ∧
    cells trg_seqs !! i = Some (pad_row (cols trg_seqs) (PAD_WORD st) trg) ∧
    trg_lengths !! i = Some (length trg).
Proof.
  intros Hdata Hrun.
  destruct (parallel_collate_fn_Ok _ _ _ _ _ Hdata Hrun)
    as (l' & Hl' & Hne & -> & Hb).
  rewrite Hb, batch_pairs_collated, <-Hl'.
  split_and!; [done|apply lookup_insert_eq|].
  intros i src trg Hi.
  unfold collated in Hb. injection Hb as -> -> -> ->.
  rewrite !cols_padded_grid. unfold padded_grid. cbn [cells].
  rewrite !list_lookup_fmap, Hi. cbn. split_and!; try done.
  rewrite <-(sorted_by_reverse_Permutation src_len l), <-Hl'.
  by eapply list_elem_of_lookup_2.
Qed.

Lemma collate_rows_paired_witness :
  batch_pairs example_batch = sorted_by src_len true example_pairs ∧
  heap example_state_after !! 1%positive
    = Some (sorted_by src_len true example_pairs) ∧
  ∀ (i : nat) (src trg : tensor),
    sorted_by src_len true example_pairs !! i = Some (src, trg) →
    (src, trg) ∈ example_pairs ∧
    cells example_src_seqs !! i
      = Some (pad_row (cols example_src_seqs) (PAD_WORD example_state) src) ∧
    [5; 3; 3] !! i = Some (length src) ∧
    cells example_trg_seqs !! i
      = Some (pad_row (cols example_trg_seqs) (PAD_WORD example_state) trg) ∧
    [3; 5; 2] !! i = Some (length trg).
Proof.
  apply (collate_rows_paired 1%positive example_state example_state_after
           example_pairs example_src_seqs example_trg_seqs
           [5; 3; 3] [3; 5; 2]).
  - reflexivity.
  - vm_compute. reflexivity.
Defined.

(** C10.  The sort of [parallel_collate_fn] is stable: for every source
    length, the pairs of that length appear in the rows of the batch in the
    order they had in the input list. *)
Theorem collate_sort_stable (data : loc) (st st' : state)
    (l : list (tensor * tensor)) (b : batch) :
  heap st !! data = Some l →
  parallel_collate_fn data st = (st', Ok b) →
  ∀ k : nat,
    filter (λ p, src_len p = k) (batch_pairs b)
    = filter (λ p, src_len p = k) l.
Proof.
  intros Hdata Hrun k.
  destruct (parallel_collate_fn_Ok _ _ _ _ _ Hdata Hrun)
    as (l' & -> & Hne & _ & ->).
  rewrite batch_pairs_collated. apply sorted_by_reverse_stable.
Qed.

Lemma collate_sort_stable_witness :
  filter (λ p, src_len p = 3) (batch_pairs example_batch)
  = filter (λ p, src_len p = 3) example_pairs.
Proof.
  apply (collate_sort_stable 1%positive example_state example_state_after
           example_pairs example_batch).
  - reflexivity.
  - vm_compute. reflexivity.
Defined.

(** C9.  A call of [parallel_collate_fn] on a list object leaves that
    object holding the same pairs in descending order of source length,
    whether it returns a batch or raises; it leaves [PAD_WORD] and every
    other list object as they were.  The call does change its argument: the
    example list is not what it was before the call. *)
Theorem collate_sorts_in_place :
  (∀ (data : loc) (st : state) (l : list (tensor * tensor)),
     heap st !! data = Some l →
     ∃ l' : list (tensor * tensor),
       heap (parallel_collate_fn data st).1 !! data = Some l' ∧
       l' ≡ₚ l ∧
       StronglySorted (λ x y, src_len y ≤ src_len x) l' ∧
       PAD_WORD (parallel_collate_fn data st).1 = PAD_WORD st ∧
       ∀ other : loc,
         other ≠ data →
         heap (parallel_collate_fn data st).1 !! other = heap st !! other) ∧
  heap example_state !! 1%positive = Some example_pairs ∧
  heap (parallel_collate_fn 1%positive example_state).1 !! 1%positive
    = Some example_sorted ∧
  example_sorted ≠ example_pairs.
Proof.
  split_and!; [|done|by vm_compute|discriminate].
  intros data st l Hdata. rewrite (parallel_collate_fn_run _ _ _ Hdata).
  exists (sorted_by src_len true l). cbn [fst heap PAD_WORD].
  split_and!.
  - apply lookup_insert_eq.
  - apply sorted_by_reverse_Permutation.
  - apply sorted_by_reverse_sorted.
  - done.
  - intros other Hother. by apply lookup_insert_ne.
Qed.

Lemma collate_sorts_in_place_witness :
  ∃ l' : list (tensor * tensor),
    heap (parallel_collate_fn 1%positive example_state).1 !! 1%positive
      = Some l' ∧
    l' ≡ₚ example_pairs ∧
    StronglySorted (λ x y, src_len y ≤ src_len x) l' ∧
    PAD_WORD (parallel_collate_fn 1%positive example_state).1
      = PAD_WORD example_state ∧
    ∀ other : loc,
      other ≠ 1%positive →
      heap (parallel_collate_fn 1%positive example_state).1 !! other
      = heap example_state !! other.
Proof.
  apply (proj1 collate_sorts_in_place 1%positive example_state example_pairs).
  reflexivity.
Defined.

(** ** The pad value *)

Lemma padded_grid_pad_cells (pad : Z) (sequences : list tensor)
    (i j n : nat) :
  (length <$> sequences) !! i = Some n →
  n ≤ j → j < cols (padded_grid pad sequences) →
  cell (padded_grid pad sequences) i j = Some pad.
Proof.
  rewrite list_lookup_fmap, cols_padded_grid.
  destruct (sequences !! i) as [seq|] eqn:Hi; [|done].
  cbn. intros [= <-] Hj Hw.
  rewrite (cell_padded_grid _ _ _ _ _ Hi). by apply pad_row_lookup_pad.
Qed.

Lemma parallel_collate_fn_PAD_WORD (data : loc) (st : state) :
  PAD_WORD (parallel_collate_fn data st).1 = PAD_WORD st.
Proof.
  destruct (heap st !! data) as [l|] eqn:Hdata.
  - by rewrite (parallel_collate_fn_run _ _ _ Hdata).
  - by rewrite (parallel_collate_fn_no_list _ _ Hdata).
Qed.

(** The fill value of one call is the global at the time of the call. *)
Lemma parallel_collate_fn_fill (data : loc) (st st' : state)
    (l : list (tensor * tensor)) (src_seqs trg_seqs : tensor2)
    (src_lengths trg_lengths : list nat) :
  heap st !! data = Some l →
  parallel_collate_fn data st
    = (st', Ok (src_seqs, src_lengths, trg_seqs, trg_lengths)) →
  PAD_WORD st' = PAD_WORD st ∧
  (∀ i j n, src_lengths !! i = Some n → n ≤ j → j < cols src_seqs →
            cell src_seqs i j = Some (PAD_WORD st)) ∧
  (∀ i j n, trg_lengths !! i = Some n → n ≤ j → j < cols trg_seqs →
            cell trg_seqs i j = Some (PAD_WORD st)).
Proof.
  intros Hdata Hrun.
  destruct (parallel_collate_fn_Ok _ _ _ _ _ Hdata Hrun)
    as (l' & _ & _ & -> & Hb).
  unfold collated in Hb. injection Hb as -> -> -> ->.
  split_and!; [done|..]; intros i j n; apply padded_grid_pad_cells.
Qed.

(** The two factories up to the construction of the loader: the dataset is
    built, then the global is written. *)
Lemma get_valid_parallel_loader_run (files : gmap string file)
    (src_path trg_path : string) (src_word2id trg_word2id : list string)
    (batch_size : nat) (st : state) :
  get_valid_parallel_loader files src_path trg_path src_word2id trg_word2id
    batch_size st
  = match ParallelDataset_init files src_path trg_path src_word2id
            trg_word2id, Py.index src_word2id "<pad>" with
    | Ok dataset, Ok pad =>
        ({| PAD_WORD := Z.of_nat pad; heap := heap st |},
         DataLoader.new dataset batch_size
           (DataLoader.SequentialSampler (ParallelDataset_len dataset)))
    | Ok _, Raise e => (st, Raise e)
    | Raise e, _ => (st, Raise e)
    end.
Proof.
  unfold get_valid_parallel_loader, mbind, M_bind, lift, write_PAD_WORD.
  destruct (ParallelDataset_init _ _ _ _ _) as [dataset|e]; [|done].
  by destruct (Py.index _ _) as [pad|e].
Qed.

Lemma get_train_parallel_loader_PAD_WORD
    (DistributedSampler : nat → nat → nat → result (list nat))
    (files : gmap string file) (src_path trg_path : string)
    (src_word2id trg_word2id : list string)
    (batch_size world_size rank : nat) (st st' : state)
    (r : DataLoader.t * list nat) :
  get_train_parallel_loader DistributedSampler files src_path trg_path
    src_word2id trg_word2id batch_size world_size rank st = (st', Ok r) →
  ∃ pad : nat,
    Py.index src_word2id "<pad>" = Ok pad ∧
    st' = {| PAD_WORD := Z.of_nat pad; heap := heap st |}.
Proof.
  unfold get_train_parallel_loader, mbind, M_bind, lift, write_PAD_WORD.
  destruct (ParallelDataset_init _ _ _ _ _) as [dataset|e]; [|done].
  destruct (Py.index _ _) as [pad|e]; [|done].
  destruct (DistributedSampler _ _ _) as [sampler|e]; [|done].
  destruct (DataLoader.new _ _ _) as [dl|e]; [|done].
  intros [= <- _]. by exists pad.
Qed.

Lemma init_Ok_pad_index (files : gmap string file)
    (src_path trg_path : string) (src_word2id trg_word2id : list string)
    (dataset : ParallelDataset) :
  ParallelDataset_init files src_path trg_path src_word2id trg_word2id
    = Ok dataset →
  Py.index src_word2id "<pad>" = Ok (pad_index dataset).
Proof.
  unfold ParallelDataset_init.
  destruct (open_read files src_path) as [src_text|e]; [|done].
  destruct (open_read files trg_path) as [trg_text|e]; [|done]. cbn.
  destruct (Py.index src_word2id "<pad>") as [pad|e]; [|done].
  by intros [= <-].
Qed.

Lemma get_train_parallel_loader_run
    (DistributedSampler : nat → nat → nat → result (list nat))
    (files : gmap string file) (src_path trg_path : string)
    (src_word2id trg_word2id : list string)
    (batch_size world_size rank : nat) (st : state) :
  get_train_parallel_loader DistributedSampler files src_path trg_path
    src_word2id trg_word2id batch_size world_size rank st
  = match ParallelDataset_init files src_path trg_path src_word2id
            trg_word2id with
    | Ok dataset =>
        ({| PAD_WORD := Z.of_nat (pad_index dataset); heap := heap st |},
         sampler ← DistributedSampler (ParallelDataset_len dataset)
                     world_size rank;
         data_loader ← DataLoader.new dataset batch_size sampler;
         Ok (data_loader, sampler))
    | Raise e => (st, Raise e)
    end.
Proof.
  unfold get_train_parallel_loader, mbind at 1 2, M_bind, lift, write_PAD_WORD.
  destruct (ParallelDataset_init _ _ _ _ _) as [dataset|e] eqn:Hinit; [|done].
  rewrite (init_Ok_pad_index _ _ _ _ _ _ Hinit).
  unfold mbind at 1 2, M_bind. cbn [PAD_WORD heap].
  destruct (DistributedSampler _ _ _) as [sampler|e]; [|done].
  unfold mret, M_ret. cbn. by destruct (DataLoader.new _ _ _).
Qed.

Lemma init_Ok_len (files : gmap string file)
    (src_path trg_path : string) (src_word2id trg_word2id : list string)
    (dataset : ParallelDataset) :
  ParallelDataset_init files src_path trg_path src_word2id trg_word2id
    = Ok dataset →
  ParallelDataset_len dataset = length (src_seqs dataset).
Proof.
  unfold ParallelDataset_init.
  destruct (open_read files src_path) as [src_text|e]; [|done].
  destruct (open_read files trg_path) as [trg_text|e]; [|done]. cbn.
  destruct (Py.index src_word2id "<pad>") as [pad|e]; [|done].
  by intros [= <-].
Qed.

Lemma init_Ok_of_files (files : gmap string file)
    (src_path trg_path src_text trg_text : string)
    (src_word2id trg_word2id : list string) (pad : nat) :
  files !! src_path = Some (Text src_text) →
  files !! trg_path = Some (Text trg_text) →
  Py.index src_word2id "<pad>" = Ok pad →
  ParallelDataset_init files src_path trg_path src_word2id trg_word2id
  = Ok {| src_seqs := Py.splitlines src_text;
          trg_seqs := Py.splitlines trg_text;
          num_total_seqs := length (Py.splitlines src_text);
          src_word2id := src_word2id;
          trg_word2id := trg_word2id;
          pad_index := pad |}.
Proof.
  intros Hsrc Htrg Hpad. unfold ParallelDataset_init, open_read.
  rewrite Hsrc, Htrg. cbn. by rewrite Hpad.
Qed.

(** C8.  The value [parallel_collate_fn] pads with is the module global
    [PAD_WORD] at the time of the call, on the source and on the target grid,
    and a call leaves the global as it is, whether it returns or raises.
    While the global holds its module-level value, every padded position
    holds -1, which is no vocabulary index.  A factory call that returns
    sets the global to the position of [<pad>] in the source vocabulary it
    was given, whatever the global held before, so the latest call decides
    the value for every later batch.  Either factory, given two readable
    files and a source vocabulary with [<pad>], does write the global, to
    that position, whether or not it then returns, and it returns for a
    positive batch size (the training one when its sampler is built); every
    batch assembled afterwards is padded with that position. *)
Theorem pad_value_is_module_global :
  (∀ (data : loc) (st st' : state) (l : list (tensor * tensor))
     (src_seqs trg_seqs : tensor2) (src_lengths trg_lengths : list nat),
     heap st !! data = Some l →
     parallel_collate_fn data st
       = (st', Ok (src_seqs, src_lengths, trg_seqs, trg_lengths)) →
     PAD_WORD st' = PAD_WORD st ∧
     (∀ i j n, src_lengths !! i = Some n → n ≤ j → j < cols src_seqs →
               cell src_seqs i j = Some (PAD_WORD st)) ∧
     (∀ i j n, trg_lengths !! i = Some n → n ≤ j → j < cols trg_seqs →
               cell trg_seqs i j = Some (PAD_WORD st))) ∧
  (∀ (data : loc) (st : state),
     PAD_WORD (parallel_collate_fn data st).1 = PAD_WORD st) ∧
  (PAD_WORD module_state = (-1)%Z ∧ ∀ pad : nat, Z.of_nat pad ≠ (-1)%Z) ∧
  (∀ (data : loc) (objects : gmap loc (list (tensor * tensor)))
     (st' : state) (l : list (tensor * tensor))
     (src_seqs trg_seqs : tensor2) (src_lengths trg_lengths : list nat),
     objects !! data = Some l →
     parallel_collate_fn data
       {| PAD_WORD := PAD_WORD module_state; heap := objects |}
       = (st', Ok (src_seqs, src_lengths, trg_seqs, trg_lengths)) →
     (∀ i j n, src_lengths !! i = Some n → n ≤ j → j < cols src_seqs →
               cell src_seqs i j = Some (-1)%Z) ∧
     (∀ i j n, trg_lengths !! i = Some n → n ≤ j → j < cols trg_seqs →
               cell trg_seqs i j = Some (-1)%Z)) ∧
  (∀ (files : gmap string file) (src_path trg_path : string)
     (src_word2id trg_word2id : list string) (batch_size : nat)
     (st st' : state) (data_loader : DataLoader.t),
     get_valid_parallel_loader files src_path trg_path src_word2id
       trg_word2id batch_size st = (st', Ok data_loader) →
     ∃ pad : nat,
       Py.index src_word2id "<pad>" = Ok pad ∧
       PAD_WORD st' = Z.of_nat pad ∧ heap st' = heap st) ∧
  (∀ (DistributedSampler : nat → nat → nat → result (list nat))
     (files : gmap string file) (src_path trg_path : string)
     (src_word2id trg_word2id : list string)
     (batch_size world_size rank : nat) (st st' : state)
     (r : DataLoader.t * list nat),
     get_train_parallel_loader DistributedSampler files src_path trg_path
       src_word2id trg_word2id batch_size world_size rank st = (st', Ok r) →
     ∃ pad : nat,
       Py.index src_word2id "<pad>" = Ok pad ∧
       PAD_WORD st' = Z.of_nat pad ∧ heap st' = heap st) ∧
  (∀ (files : gmap string file)
     (src_path trg_path src_text trg_text : string)
     (src_word2id trg_word2id : list string) (batch_size pad : nat)
     (st : state),
     files !! src_path = Some (Text src_text) →
     files !! trg_path = Some (Text trg_text) →
     Py.index src_word2id "<pad>" = Ok pad →
     ((get_valid_parallel_loader files src_path trg_path src_word2id
         trg_word2id batch_size st).1
      = {| PAD_WORD := Z.of_nat pad; heap := heap st |} ∧
      (0 < batch_size →
       ∃ data_loader,
         (get_valid_parallel_loader files src_path trg_path src_word2id
            trg_word2id batch_size st).2 = Ok data_loader)) ∧
     (∀ (DistributedSampler : nat → nat → nat → result (list nat))
        (world_size rank : nat),
        (get_train_parallel_loader DistributedSampler files src_path
           trg_path src_word2id trg_word2id batch_size world_size rank st).1
        = {| PAD_WORD := Z.of_nat pad; heap := heap st |} ∧
        (0 < batch_size →
         ∀ sampler : list nat,
           DistributedSampler (length (Py.splitlines src_text)) world_size
             rank = Ok sampler →
           ∃ data_loader,
             (get_train_parallel_loader DistributedSampler files src_path
                trg_path src_word2id trg_word2id batch_size world_size
                rank st).2 = Ok (data_loader, sampler))) ∧
     (∀ (data : loc) (st2 : state) (l : list (tensor * tensor))
        (src_seqs trg_seqs : tensor2) (src_lengths trg_lengths : list nat),
        heap st !! data = Some l →
        parallel_collate_fn data
          {| PAD_WORD := Z.of_nat pad; heap := heap st |}
          = (st2, Ok (src_seqs, src_lengths, trg_seqs, trg_lengths)) →
        PAD_WORD st2 = Z.of_nat pad ∧
        (∀ i j n, src_lengths !! i = Some n → n ≤ j → j < cols src_seqs →
                  cell src_seqs i j = Some (Z.of_nat pad)) ∧
        (∀ i j n, trg_lengths !! i = Some n → n ≤ j → j < cols trg_seqs →
                  cell trg_seqs i j = Some (Z.of_nat pad)))).
Proof.
  split_and!.
  - exact parallel_collate_fn_fill.
  - exact parallel_collate_fn_PAD_WORD.
  - done.
  - lia.
  - intros data objects st' l src_seqs trg_seqs src_lengths trg_lengths
      Hdata Hrun.
    destruct (parallel_collate_fn_fill data
                {| PAD_WORD := PAD_WORD module_state; heap := objects |}
                st' l _ _ _ _ Hdata Hrun) as (_ & Hsrc & Htrg).
    by split.
  - intros files src_path trg_path src_word2id trg_word2id batch_size
      st st' data_loader.
    rewrite get_valid_parallel_loader_run.
    destruct (ParallelDataset_init _ _ _ _ _) as [dataset|e]; [|done].
    destruct (Py.index _ _) as [pad|e]; [|done].
    intros [= <- _]. by exists pad.
  - intros DistributedSampler files src_path trg_path src_word2id
      trg_word2id batch_size world_size rank st st' r Hrun.
    destruct (get_train_parallel_loader_PAD_WORD _ _ _ _ _ _ _ _ _ _ _ _ Hrun)
      as (pad & Hpad & ->).
    by exists pad.
  - intros files src_path trg_path src_text trg_text src_word2id
      trg_word2id batch_size pad st Hsrc Htrg Hpad.
    pose proof (init_Ok_of_files files src_path trg_path src_text trg_text
                  src_word2id trg_word2id pad Hsrc Htrg Hpad) as Hinit.
    split; [|split].
    + rewrite get_valid_parallel_loader_run, Hinit, Hpad. cbn [fst snd].
      split; [done|]. intros Hsize. unfold DataLoader.new.
      rewrite decide_False by lia. eauto.
    + intros DistributedSampler world_size rank.
      rewrite get_train_parallel_loader_run, Hinit.
      cbn [fst snd pad_index ParallelDataset_len num_total_seqs].
      split; [done|]. intros Hsize sampler ->. cbn.
      unfold DataLoader.new. rewrite decide_False by lia. cbn. eauto.
    + intros data st2 l src_seqs trg_seqs src_lengths trg_lengths
        Hdata Hrun.
      exact (parallel_collate_fn_fill data
               {| PAD_WORD := Z.of_nat pad; heap := heap st |}
               st2 l _ _ _ _ Hdata Hrun).
Qed.

Lemma pad_value_is_module_global_witness :
  ((∀ i j n, [3; 2] !! i = Some n → n ≤ j →
             j < cols {| shape := (2, 3);
                         cells := [[1; 3; 2]; [1; 2; -1]]%Z |} →
             cell {| shape := (2, 3);
                     cells := [[1; 3; 2]; [1; 2; -1]]%Z |} i j
             = Some (-1)%Z) ∧
   (∀ i j n, [2; 3] !! i = Some n → n ≤ j →
             j < cols {| shape := (2, 3);
                         cells := [[1; 2; -1]; [1; 3; 2]]%Z |} →
             cell {| shape := (2, 3);
                     cells := [[1; 2; -1]; [1; 3; 2]]%Z |} i j
             = Some (-1)%Z)) ∧
  (((get_valid_parallel_loader example_files "valid.src" "valid.trg"
       ["<s>"; "</s>"; "<pad>"; "i"; "am"; "fine"] vocab 2 unset_state).1
    = {| PAD_WORD := Z.of_nat 2; heap := heap unset_state |} ∧
    (0 < 2 →
     ∃ data_loader,
       (get_valid_parallel_loader example_files "valid.src" "valid.trg"
          ["<s>"; "</s>"; "<pad>"; "i"; "am"; "fine"] vocab 2
          unset_state).2 = Ok data_loader)) ∧
   (∀ (DistributedSampler : nat → nat → nat → result (list nat))
      (world_size rank : nat),
      (get_train_parallel_loader DistributedSampler example_files
         "valid.src" "valid.trg"
         ["<s>"; "</s>"; "<pad>"; "i"; "am"; "fine"] vocab 2 world_size
         rank unset_state).1
      = {| PAD_WORD := Z.of_nat 2; heap := heap unset_state |} ∧
      (0 < 2 →
       ∀ sampler : list nat,
         DistributedSampler
           (length (Py.splitlines (text_of_lines example_src_lines)))
           world_size rank = Ok sampler →
         ∃ data_loader,
           (get_train_parallel_loader DistributedSampler example_files
              "valid.src" "valid.trg"
              ["<s>"; "</s>"; "<pad>"; "i"; "am"; "fine"] vocab 2
              world_size rank unset_state).2
           = Ok (data_loader, sampler))) ∧
   (∀ (data : loc) (st2 : state) (l : list (tensor * tensor))
      (src_seqs trg_seqs : tensor2) (src_lengths trg_lengths : list nat),
      heap unset_state !! data = Some l →
      parallel_collate_fn data
        {| PAD_WORD := Z.of_nat 2; heap := heap unset_state |}
        = (st2, Ok (src_seqs, src_lengths, trg_seqs, trg_lengths)) →
      PAD_WORD st2 = Z.of_nat 2 ∧
      (∀ i j n, src_lengths !! i = Some n → n ≤ j → j < cols src_seqs →
                cell src_seqs i j = Some (Z.of_nat 2)) ∧
      (∀ i j n, trg_lengths !! i = Some n → n ≤ j → j < cols trg_seqs →
                cell trg_seqs i j = Some (Z.of_nat 2)))).
Proof.
  split.
  - apply (proj1 (proj2 (proj2 (proj2 pad_value_is_module_global)))
             1%positive (heap unset_state) unset_state_after
             [([1; 2], [1; 3; 2]); ([1; 3; 2], [1; 2])]%Z
             {| shape := (2, 3); cells := [[1; 3; 2]; [1; 2; -1]]%Z |}
             {| shape := (2, 3); cells := [[1; 2; -1]; [1; 3; 2]]%Z |}
             [3; 2] [2; 3]).
    + reflexivity.
    + vm_compute. reflexivity.
  - apply (proj2 (proj2 (proj2 (proj2 (proj2 (proj2
             pad_value_is_module_global)))))
             example_files "valid.src" "valid.trg"
             (text_of_lines example_src_lines)
             (text_of_lines example_trg_lines)).
    + reflexivity.
    + reflexivity.
    + reflexivity.
Defined.

(** ** The validation loader *)

(** The batches of indices: together they are the sampler's order, none is
    empty or longer than the batch size, and all but the last are full. *)
Lemma BatchSampler_from_spec (batch_size : nat) (sampler batch : list nat) :
  length batch < batch_size →
  concat (DataLoader.BatchSampler_from batch batch_size sampler)
    = batch ++ sampler ∧
  Forall (λ b, 0 < length b ≤ batch_size)
    (DataLoader.BatchSampler_from batch batch_size sampler) ∧
  ∀ (k : nat) (b : list nat),
    DataLoader.BatchSampler_from batch batch_size sampler !! k = Some b →
    k + 1 < length (DataLoader.BatchSampler_from batch batch_size sampler) →
    length b = batch_size.
Proof.
  revert batch. induction sampler as [|idx rest IH]; intros batch Hlt.
  - destruct batch as [|i batch]; cbn.
    + split_and!; [done|constructor|]. intros k b. by rewrite lookup_nil.
    + rewrite app_nil_r. split_and!; [done| |].
      * constructor; [cbn in *; lia|constructor].
      * intros k b _ Hk. cbn in Hk. lia.
  - cbn [DataLoader.BatchSampler_from]. case_decide as Hfull.
    + destruct (IH []) as (Hcat & Hall & Hbut); [cbn; lia|].
      split_and!.
      * cbn. by rewrite Hcat, <-(assoc_L (++)).
      * constructor; [lia|done].
      * intros [|k] b; cbn; [by intros [= <-]|].
        intros Hb Hk. apply (Hbut k b Hb). lia.
    + rewrite length_app in Hfull. cbn in Hfull.
      destruct (IH (batch ++ [idx])) as (Hcat & Hall & Hbut).
      { rewrite length_app. cbn. lia. }
      split_and!; [|done|done].
      by rewrite Hcat, <-(assoc_L (++)).
Qed.

(** A traversal in [M] that returns has returned on every element. *)
Lemma M_mapM_Ok {A B} (f : A → M B) (l : list A) (st st' : state)
    (k : list B) :
  mapM f l st = (st', Ok k) →
  Forall2 (λ a b, ∃ s s', f a s = (s', Ok b)) l k.
Proof.
  revert st st' k. induction l as [|a l IH]; intros st st' k; cbn.
  - unfold mret, M_ret. intros [= _ <-]. constructor.
  - unfold mbind, M_bind.
    destruct (f a st) as [s1 [b|e]] eqn:Hfa; [|done].
    destruct (mapM f l s1) as [s2 [k'|e]] eqn:Hl; [|done].
    unfold mret, M_ret. intros [= _ <-].
    constructor; [by exists st, s1|]. by eapply IH.
Qed.

(** A fetched batch is the collation of the items at its indices. *)
Lemma fetch_Ok (dl : DataLoader.t) (indices : list nat) (st st' : state)
    (b : batch) :
  DataLoader.fetch dl indices st = (st', Ok b) →
  ∃ items : list (tensor * tensor),
    Forall2 (λ i item, ParallelDataset_getitem (DataLoader.dataset dl)
                         (Z.of_nat i) = Ok item) indices items ∧
    b = collated (PAD_WORD st) (sorted_by src_len true items).
Proof.
  unfold DataLoader.fetch, mbind, M_bind, lift, new_list.
  destruct (mapM _ indices) as [items|e] eqn:Hitems; [|done].
  intros Hrun. exists items. split; [by apply mapM_Ok_inv|].
  eapply parallel_collate_fn_Ok in Hrun as (l' & -> & _ & _ & ->); [done|].
  apply lookup_insert_eq.
Qed.

(** An item that cannot be read makes the fetch raise, before any list is
    built: the state is the one the fetch started from. *)
Lemma fetch_Raise (dl : DataLoader.t) (indices : list nat) (st : state) :
  Exists (λ i, ∃ e, ParallelDataset_getitem (DataLoader.dataset dl)
                      (Z.of_nat i) = Raise e) indices →
  ∃ (i : nat) (e : exn),
    i ∈ indices ∧
    ParallelDataset_getitem (DataLoader.dataset dl) (Z.of_nat i) = Raise e ∧
    DataLoader.fetch dl indices st = (st, Raise e).
Proof.
  intros Hex. apply mapM_Raise in Hex as (i & e & Hin & Hi & Hall).
  exists i, e. split_and!; [done..|].
  unfold DataLoader.fetch, mbind, M_bind, lift. by rewrite Hall.
Qed.

(** C7.  The loader [get_valid_parallel_loader] returns goes through the
    indices [0 .. len(dataset) - 1] in that order, cut into batches of
    [batch_size] indices with a shorter last one when the length is not a
    multiple; each batch it yields is the collation of the items at the
    indices of its turn and has one row per index.  Over the five-pair
    corpus with [batch_size = 2] the batches of indices are [0, 1], [2, 3]
    and [4], and the pass yields three batches of 2, 2 and 1 rows. *)
Theorem valid_loader_is_sequential :
  (∀ (files : gmap string file) (src_path trg_path : string)
     (src_word2id trg_word2id : list string) (batch_size : nat)
     (st st' : state) (data_loader : DataLoader.t),
     get_valid_parallel_loader files src_path trg_path src_word2id
       trg_word2id batch_size st = (st', Ok data_loader) →
     concat (DataLoader.iter data_loader)
       = seq 0 (ParallelDataset_len (DataLoader.dataset data_loader)) ∧
     (∀ (k : nat) (indices : list nat),
        DataLoader.iter data_loader !! k = Some indices →
        0 < length indices ≤ batch_size ∧
        (k + 1 < length (DataLoader.iter data_loader) →
         length indices = batch_size)) ∧
     ∀ (st1 st2 : state) (batches : list batch),
       DataLoader.run data_loader st1 = (st2, Ok batches) →
       Forall2
         (λ (indices : list nat) (b : batch),
            ∃ items : list (tensor * tensor),
              Forall2 (λ i item,
                         ParallelDataset_getitem
                           (DataLoader.dataset data_loader) (Z.of_nat i)
                         = Ok item) indices items ∧
              batch_pairs b = sorted_by src_len true items ∧
              rows b.1.1.1 = length indices ∧ rows b.1.2 = length indices)
         (DataLoader.iter data_loader) batches) ∧
  get_valid_parallel_loader example_files "valid.src" "valid.trg" vocab vocab
    2 module_state
    = ({| PAD_WORD := 0; heap := ∅ |}, Ok example_loader) ∧
  ParallelDataset_len (DataLoader.dataset example_loader) = 5 ∧
  DataLoader.iter example_loader = [[0; 1]; [2; 3]; [4]] ∧
  ∃ (st' : state) (batches : list batch),
    DataLoader.run example_loader {| PAD_WORD := 0; heap := ∅ |}
      = (st', Ok batches) ∧
    (λ b : batch, rows b.1.1.1) <$> batches = [2; 2; 1] ∧
    (λ b : batch, rows b.1.2) <$> batches = [2; 2; 1].
Proof.
  split_and!.
  - intros files src_path trg_path src_word2id trg_word2id batch_size
      st st' data_loader.
    rewrite get_valid_parallel_loader_run.
    destruct (ParallelDataset_init _ _ _ _ _) as [dataset|e]; [|done].
    destruct (Py.index _ _) as [pad|e]; [|done].
    unfold DataLoader.new. case_decide as Hsize; [done|].
    intros [= _ <-]. unfold DataLoader.iter, DataLoader.BatchSampler. cbn.
    destruct (BatchSampler_from_spec batch_size
                (DataLoader.SequentialSampler (ParallelDataset_len dataset)) [])
      as (Hcat & Hall & Hbut); [cbn; lia|].
    split_and!; [done| |].
    + intros k indices Hk. split; [|by apply Hbut].
      rewrite Forall_forall in Hall. apply Hall.
      by eapply list_elem_of_lookup_2.
    + intros st1 st2 batches Hrun. apply M_mapM_Ok in Hrun.
      eapply Forall2_impl; [exact Hrun|]. cbn.
      intros indices b (s & s' & Hfetch).
      apply fetch_Ok in Hfetch as (items & Hitems & ->).
      exists items. split_and!; [done|apply batch_pairs_collated|..];
        unfold collated; cbn [fst snd];
        rewrite rows_padded_grid, length_fmap;
        rewrite (Permutation_length (sorted_by_reverse_Permutation _ _));
        symmetry; by eapply Forall2_length.
  - vm_compute. reflexivity.
  - reflexivity.
  - vm_compute. reflexivity.
  - eexists _, _. split; [vm_compute; reflexivity|]. split; reflexivity.
Qed.

Lemma valid_loader_is_sequential_witness :
  concat (DataLoader.iter example_loader)
    = seq 0 (ParallelDataset_len (DataLoader.dataset example_loader)) ∧
  (∀ (k : nat) (indices : list nat),
     DataLoader.iter example_loader !! k = Some indices →
     0 < length indices ≤ 2 ∧
     (k + 1 < length (DataLoader.iter example_loader) →
      length indices = 2)) ∧
  ∀ (st1 st2 : state) (batches : list batch),
    DataLoader.run example_loader st1 = (st2, Ok batches) →
    Forall2
      (λ (indices : list nat) (b : batch),
         ∃ items : list (tensor * tensor),
           Forall2 (λ i item,
                      ParallelDataset_getitem
                        (DataLoader.dataset example_loader) (Z.of_nat i)
                      = Ok item) indices items ∧
           batch_pairs b = sorted_by src_len true items ∧
           rows b.1.1.1 = length indices ∧ rows b.1.2 = length indices)
      (DataLoader.iter example_loader) batches.
Proof.
  apply (proj1 valid_loader_is_sequential example_files "valid.src"
           "valid.trg" vocab vocab 2 module_state
           {| PAD_WORD := 0; heap := ∅ |} example_loader).
  vm_compute. reflexivity.
Defined.

(** ** Tokens outside the vocabulary *)

Lemma index_Raise_inv (l : list string) (x : string) (e : exn) :
  Py.index l x = Raise e → e = ValueError (not_in_list x) ∧ x ∉ l.
Proof.
  destruct (decide (x ∈ l)) as [Hin|Hnin].
  - destruct (index_Ok _ _ Hin) as (i & -> & _). done.
  - rewrite (index_Raise _ _ Hnin). by intros [= <-].
Qed.

Lemma mapM_Raise_inv {A B} (f : A → result B) (l : list A) (e : exn) :
  mapM f l = Raise e → ∃ a, a ∈ l ∧ f a = Raise e.
Proof.
  induction l as [|a l IH]; cbn; [done|].
  destruct (f a) as [b|e'] eqn:Hfa; cbn.
  - destruct (mapM f l) as [k|e'] eqn:Hl; cbn; [done|].
    intros [= ->]. destruct IH as (a' & Hin & Ha'); [done|].
    exists a'. split; [by right|done].
  - intros [= ->]. exists a. split; [by left|done].
Qed.

(** [preprocess] raises nothing but the [ValueError] of a failed lookup. *)
Lemma preprocess_Raise_inv (line : string) (word2id : list string)
    (trg : bool) (e : exn) :
  preprocess line word2id trg = Raise e →
  ∃ w, (w ∉ word2id) ∧ e = ValueError (not_in_list w).
Proof.
  unfold preprocess.
  destruct (Py.index word2id "<s>") as [bos|e'] eqn:Hbos; cbn.
  - destruct (mapM _ _) as [ids|e'] eqn:Hids; cbn.
    + destruct (Py.index word2id "</s>") as [eos|e'] eqn:Heos; cbn; [done|].
      intros [= ->]. apply index_Raise_inv in Heos as [-> ?]. eauto.
    + intros [= ->]. apply mapM_Raise_inv in Hids as (w & _ & Hw).
      apply index_Raise_inv in Hw as [-> ?]. eauto.
  - intros [= ->]. apply index_Raise_inv in Hbos as [-> ?]. eauto.
Qed.

(** The item at an index that both files reach: a line with a token
    outside its vocabulary makes the access raise, and the access raises
    nothing but the [ValueError] of a failed lookup. *)
Lemma getitem_Raise (self : ParallelDataset) (i : nat)
    (src_line trg_line : string) :
  src_seqs self !! i = Some src_line →
  trg_seqs self !! i = Some trg_line →
  Exists (λ tok, tok ∉ src_word2id self) (Py.split src_line) ∨
  Exists (λ tok, tok ∉ trg_word2id self) (Py.split trg_line) →
  ∃ e, ParallelDataset_getitem self (Z.of_nat i) = Raise e.
Proof.
  intros Hsrc Htrg Hoov. unfold ParallelDataset_getitem.
  rewrite (getitem_nat _ _ _ Hsrc), (getitem_nat _ _ _ Htrg). cbn.
  destruct (preprocess src_line _ _) as [src|e] eqn:Hpsrc; cbn; [|eauto].
  destruct Hoov as [Hoov|Hoov].
  - destruct (preprocess_Raise _ _ false Hoov) as (w & _ & Hw). congruence.
  - destruct (preprocess_Raise _ _ true Hoov) as (w & _ & ->). cbn. eauto.
Qed.

Lemma getitem_Raise_inv (self : ParallelDataset) (i : nat) (e : exn) :
  i < length (src_seqs self) →
  i < length (trg_seqs self) →
  ParallelDataset_getitem self (Z.of_nat i) = Raise e →
  ∃ w, (w ∉ src_word2id self ∨ w ∉ trg_word2id self) ∧
       e = ValueError (not_in_list w).
Proof.
  intros Hsrc Htrg. unfold ParallelDataset_getitem.
  apply lookup_lt_is_Some_2 in Hsrc as [src_line Hsrc].
  apply lookup_lt_is_Some_2 in Htrg as [trg_line Htrg].
  rewrite (getitem_nat _ _ _ Hsrc), (getitem_nat _ _ _ Htrg). cbn.
  destruct (preprocess src_line _ _) as [src|e'] eqn:Hpsrc; cbn.
  - destruct (preprocess trg_line _ _) as [trg|e'] eqn:Hptrg; cbn; [done|].
    intros [= ->]. apply preprocess_Raise_inv in Hptrg as (w & ? & ->). eauto.
  - intros [= ->]. apply preprocess_Raise_inv in Hpsrc as (w & ? & ->). eauto.
Qed.

(** C5, as the specification states it, fails: the lookup of a token
    outside the vocabulary raises [ValueError], which is not a
    [LookupError]. *)
Lemma oov_token_error_is_not_LookupError :
  ∃ e : exn,
    preprocess "i am well" vocab true = Raise e ∧
    e = ValueError (not_in_list "well") ∧
    isinstance e cls_LookupError = false.
Proof. exists (ValueError (not_in_list "well")). by vm_compute. Qed.

(** C5, amended.  A line with a token outside the vocabulary makes
    [preprocess] raise the [ValueError] of [list.index] for a word the
    vocabulary lacks: there is no fallback id, and the exception is not a
    [LookupError].  When the indices of a batch are all within both files and
    one of them reaches such a line, on the source or on the target side,
    fetching the batch raises that [ValueError] and so does the step of the
    iterator: no batch is returned and the state is the one before the
    fetch. *)
Theorem oov_token_raises_ValueError :
  (∀ (line : string) (word2id : list string) (trg : bool),
     Exists (λ tok, tok ∉ word2id) (Py.split line) →
     ∃ w : string,
       (w ∉ word2id) ∧
       preprocess line word2id trg = Raise (ValueError (not_in_list w)) ∧
       isinstance (ValueError (not_in_list w)) cls_ValueError = true ∧
       isinstance (ValueError (not_in_list w)) cls_LookupError = false) ∧
  (∀ (dl : DataLoader.t) (indices : list nat) (st : state),
     Forall (λ i, i < length (src_seqs (DataLoader.dataset dl)) ∧
                  i < length (trg_seqs (DataLoader.dataset dl))) indices →
     Exists (λ i, ∃ src_line trg_line : string,
                src_seqs (DataLoader.dataset dl) !! i = Some src_line ∧
                trg_seqs (DataLoader.dataset dl) !! i = Some trg_line ∧
                (Exists (λ tok, tok ∉ src_word2id (DataLoader.dataset dl))
                   (Py.split src_line) ∨
                 Exists (λ tok, tok ∉ trg_word2id (DataLoader.dataset dl))
                   (Py.split trg_line))) indices →
     ∃ w : string,
       (w ∉ src_word2id (DataLoader.dataset dl) ∨
        w ∉ trg_word2id (DataLoader.dataset dl)) ∧
       DataLoader.fetch dl indices st
         = (st, Raise (ValueError (not_in_list w))) ∧
       ∀ it : list (list nat),
         DataLoader.next dl (indices :: it) st
         = (st, Raise (ValueError (not_in_list w)))).
Proof.
  split.
  - intros line word2id trg Hoov.
    destruct (preprocess_Raise _ _ trg Hoov) as (w & Hw & Hraise).
    by exists w.
  - intros dl indices st Hrange Hoov.
    destruct (fetch_Raise dl indices st) as (i & e & Hin & Hi & Hfetch).
    { eapply Exists_impl; [exact Hoov|]. cbn.
      intros i (src_line & trg_line & Hsrc & Htrg & Hex).
      by eapply getitem_Raise. }
    rewrite Forall_forall in Hrange. destruct (Hrange i Hin) as [Hs Ht].
    destruct (getitem_Raise_inv _ _ _ Hs Ht Hi) as (w & Hw & ->).
    exists w. split_and!; [done..|].
    intros it. unfold DataLoader.next, mbind, M_bind. by rewrite Hfetch.
Qed.

Lemma oov_token_raises_ValueError_witness :
  ∃ w : string,
    (w ∉ src_word2id (DataLoader.dataset oov_loader) ∨
     w ∉ trg_word2id (DataLoader.dataset oov_loader)) ∧
    DataLoader.fetch oov_loader [0; 1] module_state
      = (module_state, Raise (ValueError (not_in_list w))) ∧
    ∀ it : list (list nat),
      DataLoader.next oov_loader ([0; 1] :: it) module_state
      = (module_state, Raise (ValueError (not_in_list w))).
Proof.
  apply (proj2 oov_token_raises_ValueError oov_loader [0; 1] module_state).
  - repeat constructor.
  - apply Exists_cons_tl, Exists_cons_hd.
    exists "i am well", "fine". split_and!; [reflexivity..|].
    left. apply Exists_cons_tl, Exists_cons_tl, Exists_cons_hd.
    apply (bool_decide_unpack _). by vm_compute.
Defined.

(** ** Construction of the dataset *)

(** C6, as the specification states it, fails: from a source file of two
    lines and a target file of one, construction returns a dataset. *)
Lemma init_accepts_misaligned_files :
  ParallelDataset_init misaligned_files "train.src" "train.trg" vocab vocab
    = Ok misaligned_dataset ∧
  length (src_seqs misaligned_dataset) = 2 ∧
  length (trg_seqs misaligned_dataset) = 1.
Proof. by vm_compute. Qed.

(** C6, amended.  Construction reads the whole of both files into two lists
    of lines and compares no counts: with both files readable and [<pad>] in
    the source vocabulary it returns the dataset, whose length is the number
    of source lines, also when the target file has another number of lines.
    A missing target line shows only on access, as [IndexError]. *)
Theorem init_reads_lines_unchecked (files : gmap string file)
    (src_path trg_path src_text trg_text : string)
    (src_word2id trg_word2id : list string) :
  files !! src_path = Some (Text src_text) →
  files !! trg_path = Some (Text trg_text) →
  "<pad>" ∈ src_word2id →
  ∃ (pad : nat) (dataset : ParallelDataset),
    Py.index src_word2id "<pad>" = Ok pad ∧
    ParallelDataset_init files src_path trg_path src_word2id trg_word2id
      = Ok dataset ∧
    dataset = {| src_seqs := Py.splitlines src_text;
                 trg_seqs := Py.splitlines trg_text;
                 num_total_seqs := length (Py.splitlines src_text);
                 src_word2id := src_word2id;
                 trg_word2id := trg_word2id;
                 pad_index := pad |} ∧
    ParallelDataset_len dataset = length (Py.splitlines src_text) ∧
    ∀ i : nat,
      i < length (Py.splitlines src_text) →
      length (Py.splitlines trg_text) ≤ i →
      ParallelDataset_getitem dataset (Z.of_nat i) = Raise IndexError.
Proof.
  intros Hsrc Htrg Hpad.
  destruct (index_Ok _ _ Hpad) as (pad & Hindex & _).
  eexists pad, _. split_and!; [done| |reflexivity|done|].
  - unfold ParallelDataset_init, open_read. rewrite Hsrc, Htrg. cbn.
    by rewrite Hindex.
  - intros i Hi Hout. unfold ParallelDataset_getitem. cbn.
    apply lookup_lt_is_Some_2 in Hi as [line Hline].
    rewrite (getitem_nat _ _ _ Hline). cbn.
    by rewrite (getitem_nat_out _ _ Hout).
Qed.

Lemma init_reads_lines_unchecked_witness :
  ∃ (pad : nat) (dataset : ParallelDataset),
    Py.index vocab "<pad>" = Ok pad ∧
    ParallelDataset_init misaligned_files "train.src" "train.trg" vocab vocab
      = Ok dataset ∧
    dataset = {| src_seqs := Py.splitlines (text_of_lines ["i am"; "fine"]);
                 trg_seqs := Py.splitlines (text_of_lines ["am i"]);
                 num_total_seqs :=
                   length (Py.splitlines (text_of_lines ["i am"; "fine"]));
                 src_word2id := vocab;
                 trg_word2id := vocab;
                 pad_index := pad |} ∧
    ParallelDataset_len dataset
      = length (Py.splitlines (text_of_lines ["i am"; "fine"])) ∧
    ∀ i : nat,
      i < length (Py.splitlines (text_of_lines ["i am"; "fine"])) →
      length (Py.splitlines (text_of_lines ["am i"])) ≤ i →
      ParallelDataset_getitem dataset (Z.of_nat i) = Raise IndexError.
Proof.
  apply (init_reads_lines_unchecked misaligned_files "train.src" "train.trg").
  - reflexivity.
  - reflexivity.
  - apply (bool_decide_unpack _). by vm_compute.
Defined.


(** * Further properties *)

(** ** preprocess *)

Lemma mapM_snoc {A B} (f : A → result B) (l : list A) (x : A) :
  mapM f (l ++ [x])
  = match mapM f l with
    | Ok k => match f x with Ok y => Ok (k ++ [y]) | Raise e => Raise e end
    | Raise e => Raise e
    end.
Proof.
  induction l as [|a l IH]; cbn.
  - by destruct (f x).
  - destruct (f a) as [b|e]; cbn; [|done]. rewrite IH.
    destruct (mapM f l) as [k|e]; cbn; [|done]. by destruct (f x).
Qed.

(** [preprocess] is one traversal of the words it looks up. *)
Lemma preprocess_traverse (line : string) (word2id : list string)
    (trg : bool) :
  preprocess line word2id trg
  = match mapM (Py.index word2id) (looked_up line) with
    | Ok ids => Ok (torch_Tensor ids)
    | Raise e => Raise e
    end.
Proof.
  unfold preprocess, looked_up. cbn.
  destruct (Py.index word2id "<s>") as [bos|e]; cbn; [|done].
  rewrite mapM_snoc.
  destruct (mapM _ (Py.split line)) as [ids|e]; cbn; [|done].
  by destruct (Py.index word2id "</s>").
Qed.

Lemma index_Ok_inv (l : list string) (x : string) (i : nat) :
  Py.index l x = Ok i →
  l !! i = Some x ∧ ∀ j, j < i → l !! j ≠ Some x.
Proof.
  unfold Py.index.
  destruct (list_find (λ y, y = x) l) as [[i' y]|] eqn:Hfind; [|done].
  intros [= <-]. apply list_find_Some in Hfind as (Hi & -> & Hfirst).
  split; [done|]. intros j Hj Hx. by apply (Hfirst j x).
Qed.

(** The traversal stops at the first word the vocabulary lacks. *)
Lemma mapM_index_first_missing (word2id words : list string) :
  match list_find (λ w, w ∉ word2id) words with
  | Some (_, w) =>
      mapM (Py.index word2id) words = Raise (ValueError (not_in_list w))
  | None => ∃ ids, mapM (Py.index word2id) words = Ok ids
  end.
Proof.
  induction words as [|w words IH]; cbn; [by exists []|].
  case_decide as Hw.
  - by rewrite (index_Raise _ _ Hw).
  - destruct (index_Ok _ _ Hw) as (i & -> & _). cbn.
    destruct (list_find _ words) as [[j w']|]; cbn.
    + by rewrite IH.
    + destruct IH as (ids & ->). by exists (i :: ids).
Qed.

(** X1.  With a vocabulary of at most 2^24 + 1 words, so that every id is
    a float32, the ids [preprocess] returns decode to the words it looked
    up: each id is a position of the vocabulary holding the word, [<s>]
    first, the tokens in order, [</s>] last, and it is the first such
    position. *)
Theorem preprocess_ids_decode (line : string) (word2id : list string)
    (trg : bool) (seq : tensor) :
  (Z.of_nat (length word2id) ≤ 16777217)%Z →
  preprocess line word2id trg = Ok seq →
  ∃ ids : list nat,
    seq = Z.of_nat <$> ids ∧
    Forall2 (λ id w, word2id !! id = Some w ∧
                     ∀ j, j < id → word2id !! j ≠ Some w)
      ids (looked_up line).
Proof.
  intros Hsize. rewrite preprocess_traverse.
  destruct (mapM _ _) as [ids|e] eqn:Hids; [|done].
  intros [= <-]. exists ids. apply mapM_Ok_inv in Hids. split.
  { by apply (torch_Tensor_exact word2id (looked_up line)). }
  apply Forall2_flip.
  eapply Forall2_impl; [exact Hids|]. cbn. intros w id. apply index_Ok_inv.
Qed.

Lemma preprocess_ids_decode_witness :
  ∃ ids : list nat,
    [1; 4; 3; 4; 2]%Z = Z.of_nat <$> ids ∧
    Forall2 (λ id w, ["<pad>"; "<s>"; "</s>"; "i"; "am"; "i"] !! id = Some w ∧
                     ∀ j, j < id →
                          ["<pad>"; "<s>"; "</s>"; "i"; "am"; "i"] !! j
                          ≠ Some w)
      ids (looked_up "am i am").
Proof.
  apply (preprocess_ids_decode "am i am"
           ["<pad>"; "<s>"; "</s>"; "i"; "am"; "i"] true).
  - by vm_compute.
  - vm_compute. reflexivity.
Defined.

(** X2.  [preprocess] returns exactly when the vocabulary holds [<s>],
    every token of the line and [</s>]; otherwise it raises the
    [ValueError] of the first of these words, in this order, that the
    vocabulary lacks. *)
Theorem preprocess_reports_first_missing (line : string)
    (word2id : list string) (trg : bool) :
  match list_find (λ w, w ∉ word2id) (looked_up line) with
  | Some (_, w) =>
      preprocess line word2id trg = Raise (ValueError (not_in_list w))
  | None => ∃ seq, preprocess line word2id trg = Ok seq
  end.
Proof.
  rewrite preprocess_traverse.
  pose proof (mapM_index_first_missing word2id (looked_up line)) as Hfirst.
  destruct (list_find _ (looked_up line)) as [[i w]|].
  - by rewrite Hfirst.
  - destruct Hfirst as (ids & ->). eauto.
Qed.

(** The tokens read from a point of the line on, [tok] being the part of
    the current token already read. *)
Lemma split_from_spec (tok : list ascii) (s : string) :
  Forall (λ c, Py.isspace c = false) tok →
  Forall (λ t, t ≠ EmptyString ∧
               Forall (λ c, Py.isspace c = false) (list_ascii_of_string t))
    (Py.split_from tok s) ∧
  concat (list_ascii_of_string <$> Py.split_from tok s)
    = rev tok ++ without_spaces s.
Proof.
  assert (∀ tok' : list ascii,
            tok' ≠ [] → Forall (λ c, Py.isspace c = false) tok' →
            string_of_list_ascii (rev tok') ≠ EmptyString ∧
            Forall (λ c, Py.isspace c = false)
              (list_ascii_of_string (string_of_list_ascii (rev tok'))))
    as Htoken.
  { intros tok' Hne Hns. rewrite list_ascii_of_string_of_list_ascii.
    split; [|by apply Forall_rev].
    intros Hempty. apply (f_equal list_ascii_of_string) in Hempty.
    rewrite list_ascii_of_string_of_list_ascii in Hempty. cbn in Hempty.
    apply (f_equal (@rev ascii)) in Hempty. rewrite rev_involutive in Hempty.
    done. }
  unfold without_spaces.
  revert tok. induction s as [|c s IH]; intros tok Htok; cbn.
  - destruct tok as [|c' tok]; cbn.
    + split; [constructor|done].
    + rewrite list_ascii_of_string_of_list_ascii, !app_nil_r.
      split; [|done]. constructor; [|constructor].
      by apply (Htoken (c' :: tok)).
  - destruct (Py.isspace c) eqn:Hc.
    + rewrite decide_False by done.
      destruct (IH [] ltac:(constructor)) as [Hall Hcat]. cbn in Hcat.
      destruct tok as [|c' tok]; [done|]. cbn [fmap list_fmap concat].
      rewrite Hcat, list_ascii_of_string_of_list_ascii.
      split; [|done]. constructor; [|done]. by apply (Htoken (c' :: tok)).
    + rewrite decide_True by done.
      destruct (IH (c :: tok)) as [Hall Hcat]; [by constructor|].
      split; [done|]. rewrite Hcat. cbn. by rewrite <-(assoc_L (++)).
Qed.

(** X3.  The tokens of a line are never empty and hold no whitespace, and
    read one after the other they are the line with its whitespace taken
    out; a line of whitespace only has no token. *)
Theorem split_tokens (line : string) :
  Forall (λ tok, tok ≠ EmptyString ∧
                 Forall (λ c, Py.isspace c = false)
                   (list_ascii_of_string tok))
    (Py.split line) ∧
  concat (list_ascii_of_string <$> Py.split line) = without_spaces line ∧
  (without_spaces line = [] ↔ Py.split line = []).
Proof.
  destruct (split_from_spec [] line) as [Hall Hcat]; [constructor|].
  fold (Py.split line) in Hall, Hcat. cbn in Hcat.
  split_and!; [done..|]. rewrite <-Hcat. split.
  - intros Hnil. destruct (Py.split line) as [|tok toks]; [done|].
    apply Forall_cons_1 in Hall as [[Hne _] _].
    cbn in Hnil. apply app_eq_nil in Hnil as [Hnil _].
    destruct Hne. apply (f_equal string_of_list_ascii) in Hnil.
    by rewrite string_of_list_ascii_of_string in Hnil.
  - by intros ->.
Qed.

(** ** ParallelDataset.__getitem__ *)

Lemma preprocess_length (line : string) (word2id : list string) (trg : bool)
    (seq : tensor) :
  preprocess line word2id trg = Ok seq →
  length seq = length (Py.split line) + 2.
Proof.
  rewrite preprocess_traverse.
  destruct (mapM _ _) as [ids|e] eqn:Hids; [|done].
  intros [= <-]. apply mapM_Ok_inv, Forall2_length in Hids.
  unfold torch_Tensor. rewrite length_fmap, <-Hids.
  unfold looked_up. rewrite !length_app. cbn. lia.
Qed.

(** X4.  An item [__getitem__] returns is the encoding of the two lines at
    the index: each of its sequences has the tokens of its line and the two
    markers, so at least two entries. *)
Theorem getitem_encodes_lines (self : ParallelDataset) (index : Z)
    (src trg : tensor) :
  ParallelDataset_getitem self index = Ok (src, trg) →
  ∃ src_line trg_line : string,
    Py.getitem (src_seqs self) index = Ok src_line ∧
    Py.getitem (trg_seqs self) index = Ok trg_line ∧
    preprocess src_line (src_word2id self) false = Ok src ∧
    preprocess trg_line (trg_word2id self) true = Ok trg ∧
    length src = length (Py.split src_line) + 2 ∧
    length trg = length (Py.split trg_line) + 2.
Proof.
  unfold ParallelDataset_getitem.
  destruct (Py.getitem (src_seqs self) index) as [src_line|e]; [|done].
  destruct (Py.getitem (trg_seqs self) index) as [trg_line|e]; [|done].
  cbn.
  destruct (preprocess src_line _ _) as [src'|e] eqn:Hsrc; [|done].
  destruct (preprocess trg_line _ _) as [trg'|e] eqn:Htrg; [|done].
  cbn. intros [= <- <-]. exists src_line, trg_line.
  split_and!; [done..| |]; by eapply preprocess_length.
Qed.

Lemma getitem_encodes_lines_witness :
  ∃ src_line trg_line : string,
    Py.getitem (src_seqs example_dataset) 2 = Ok src_line ∧
    Py.getitem (trg_seqs example_dataset) 2 = Ok trg_line ∧
    preprocess src_line (src_word2id example_dataset) false
      = Ok [1; 3; 4; 5; 2]%Z ∧
    preprocess trg_line (trg_word2id example_dataset) true = Ok [1; 3; 2]%Z ∧
    length [1; 3; 4; 5; 2]%Z = length (Py.split src_line) + 2 ∧
    length [1; 3; 2]%Z = length (Py.split trg_line) + 2.
Proof.
  apply (getitem_encodes_lines example_dataset 2).
  vm_compute. reflexivity.
Defined.





(** ** ParallelDataset.__init__ *)

(** X6.  Construction fails on the first thing it cannot get: it raises
    what reading the source file raises ([FileNotFoundError] for a path that
    is not there, [PermissionError], [IsADirectoryError], [UnicodeDecodeError]
    or another [OSError] for one that cannot be read), then what reading
    the target file raises, then the [ValueError] of the lookup for a source
    vocabulary without [<pad>]; otherwise it returns a dataset.  The target
    vocabulary is not looked into. *)
Theorem init_fails_in_order (files : gmap string file)
    (src_path trg_path : string) (src_word2id trg_word2id : list string) :
  ((files !! src_path = None →
    ParallelDataset_init files src_path trg_path src_word2id trg_word2id
    = Raise (FileNotFoundError src_path)) ∧
   (files !! src_path = Some (Unreadable permission_denied) →
    ParallelDataset_init files src_path trg_path src_word2id trg_word2id
    = Raise (PermissionError src_path)) ∧
   (files !! src_path = Some (Unreadable is_a_directory) →
    ParallelDataset_init files src_path trg_path src_word2id trg_word2id
    = Raise (IsADirectoryError src_path)) ∧
   (files !! src_path = Some (Unreadable undecodable) →
    ParallelDataset_init files src_path trg_path src_word2id trg_word2id
    = Raise UnicodeDecodeError) ∧
   (∀ errno, files !! src_path = Some (Unreadable (os_error errno)) →
    ParallelDataset_init files src_path trg_path src_word2id trg_word2id
    = Raise (OSError errno))) ∧
  (∀ (src_text : string) (e : exn),
     files !! src_path = Some (Text src_text) →
     open_read files trg_path = Raise e →
     ParallelDataset_init files src_path trg_path src_word2id trg_word2id
     = Raise e) ∧
  (∀ src_text trg_text : string,
     files !! src_path = Some (Text src_text) →
     files !! trg_path = Some (Text trg_text) →
     "<pad>" ∉ src_word2id →
     ParallelDataset_init files src_path trg_path src_word2id trg_word2id
     = Raise (ValueError (not_in_list "<pad>"))) ∧
  (∀ src_text trg_text : string,
     files !! src_path = Some (Text src_text) →
     files !! trg_path = Some (Text trg_text) →
     "<pad>" ∈ src_word2id →
     ∃ dataset,
       ParallelDataset_init files src_path trg_path src_word2id trg_word2id
       = Ok dataset).
Proof.
  unfold ParallelDataset_init, open_read. split_and!.
  - by intros ->.
  - by intros ->.
  - by intros ->.
  - by intros ->.
  - by intros errno ->.
  - intros src_text e ->. cbn. by intros ->.
  - intros src_text trg_text -> -> Hpad. cbn.
    by rewrite (index_Raise _ _ Hpad).
  - intros src_text trg_text -> -> Hpad. cbn.
    destruct (index_Ok _ _ Hpad) as (pad & -> & _). cbn. eauto.
Qed.

Lemma init_fails_in_order_witness :
  ParallelDataset_init
    (<["valid.trg" := Unreadable is_a_directory]> example_files)
    "valid.src" "valid.trg" vocab []
  = Raise (IsADirectoryError "valid.trg").
Proof.
  apply (proj1 (proj2 (init_fails_in_order
                         (<["valid.trg" := Unreadable is_a_directory]>
                            example_files)
                         "valid.src" "valid.trg" vocab []))
           (text_of_lines example_src_lines)).
  - reflexivity.
  - reflexivity.
Defined.

(** Reading one line that ends in a line feed. *)
Lemma splitlines_from_line (cur : list ascii) (line rest : string) :
  no_linebreak line →
  Py.splitlines_from cur (line +:+ LF +:+ rest)
  = string_of_list_ascii (rev cur ++ list_ascii_of_string line)
    :: Py.splitlines_from [] rest.
Proof.
  unfold no_linebreak. revert cur.
  induction line as [|c line IH]; intros cur Hline.
  - cbn. rewrite app_nil_r. by destruct rest.
  - cbn in Hline. apply Forall_cons_1 in Hline as [Hc Hline].
    change (String c line +:+ LF +:+ rest)
      with (String c (line +:+ LF +:+ rest)).
    cbn [Py.splitlines_from]. rewrite Hc, IH by done.
    cbn. by rewrite <-(assoc_L (++)).
Qed.

Lemma splitlines_text_of_lines (lines : list string) :
  Forall no_linebreak lines →
  Py.splitlines (text_of_lines lines) = lines.
Proof.
  unfold Py.splitlines.
  induction 1 as [|line lines Hline _ IH]; [done|].
  cbn [text_of_lines foldr]. rewrite splitlines_from_line by done.
  cbn. rewrite string_of_list_ascii_of_string. f_equal. exact IH.
Qed.

(** X7.  A file written as lines that each end in a line feed is read back
    as those lines, when no line holds a line boundary of its own: the
    dataset built from two such files holds the two lists of lines, and its
    length is the number of source lines. *)
Theorem init_reads_back_lines (files : gmap string file)
    (src_path trg_path : string) (src_lines trg_lines : list string)
    (src_word2id trg_word2id : list string) (pad : nat) :
  files !! src_path = Some (Text (text_of_lines src_lines)) →
  files !! trg_path = Some (Text (text_of_lines trg_lines)) →
  Forall no_linebreak src_lines →
  Forall no_linebreak trg_lines →
  Py.index src_word2id "<pad>" = Ok pad →
  ParallelDataset_init files src_path trg_path src_word2id trg_word2id
  = Ok {| src_seqs := src_lines;
          trg_seqs := trg_lines;
          num_total_seqs := length src_lines;
          src_word2id := src_word2id;
          trg_word2id := trg_word2id;
          pad_index := pad |}.
Proof.
  intros Hsrc Htrg Hsl Htl Hpad.
  unfold ParallelDataset_init, open_read. rewrite Hsrc, Htrg. cbn.
  rewrite Hpad. cbn. by rewrite !splitlines_text_of_lines.
Qed.

Lemma init_reads_back_lines_witness :
  ParallelDataset_init example_files "valid.src" "valid.trg" vocab vocab
  = Ok {| src_seqs := example_src_lines;
          trg_seqs := example_trg_lines;
          num_total_seqs := length example_src_lines;
          src_word2id := vocab;
          trg_word2id := vocab;
          pad_index := 0 |}.
Proof.
  apply (init_reads_back_lines example_files "valid.src" "valid.trg").
  - reflexivity.
  - reflexivity.
  - unfold no_linebreak. apply (bool_decide_unpack _). by vm_compute.
  - unfold no_linebreak. apply (bool_decide_unpack _). by vm_compute.
  - reflexivity.
Defined.

(** ** parallel_collate_fn: edge cases and composition *)

Lemma state_insert_id (st : state) (data : loc)
    (l : list (tensor * tensor)) :
  heap st !! data = Some l →
  {| PAD_WORD := PAD_WORD st; heap := <[data := l]> (heap st) |} = st.
Proof. intros Hdata. destruct st as [pad h]. cbn in *. by rewrite insert_id. Qed.

Lemma sort_ascending_id {A} (key : A → nat) (l : list A) :
  StronglySorted (λ a b, key a ≤ key b) l → sort_ascending key l = l.
Proof.
  induction 1 as [|x l Hl IH Hx]; [done|].
  change (sort_ascending key (x :: l))
    with (insert_by key x (sort_ascending key l)).
  rewrite IH. destruct l as [|y l']; [done|]. cbn.
  apply Forall_cons_1 in Hx as [Hxy _]. by rewrite decide_True.
Qed.

(** The sort changes nothing in a list that is in descending order. *)
Lemma sorted_by_reverse_id {A} (key : A → nat) (l : list A) :
  StronglySorted (λ a b, key b ≤ key a) l → sorted_by key true l = l.
Proof.
  intros Hl. unfold sorted_by.
  rewrite sort_ascending_id; [apply reverse_involutive|].
  by apply (StronglySorted_reverse (λ a b, key b ≤ key a)).
Qed.

Lemma parallel_collate_fn_descending (data : loc) (st : state)
    (l : list (tensor * tensor)) :
  heap st !! data = Some l →
  l ≠ [] →
  StronglySorted (λ x y, src_len y ≤ src_len x) l →
  parallel_collate_fn data st = (st, Ok (collated (PAD_WORD st) l)).
Proof.
  intros Hdata Hne Hl. rewrite (parallel_collate_fn_run _ _ _ Hdata).
  rewrite (sorted_by_reverse_id _ _ Hl), (state_insert_id _ _ _ Hdata).
  by destruct l.
Qed.

Lemma parallel_collate_fn_Ok_list (data : loc) (st st' : state) (b : batch) :
  parallel_collate_fn data st = (st', Ok b) →
  ∃ l, heap st !! data = Some l.
Proof.
  destruct (heap st !! data) as [l|] eqn:Hdata; [eauto|].
  by rewrite (parallel_collate_fn_no_list _ _ Hdata).
Qed.

(** X8.  [parallel_collate_fn] returns a batch exactly when the list has
    at least one pair; on a list without any it raises the [ValueError] of
    the unpacking, and the state is as before the call. *)
Theorem collate_needs_one_pair (data : loc) (st : state)
    (l : list (tensor * tensor)) :
  heap st !! data = Some l →
  ((∃ st' b, parallel_collate_fn data st = (st', Ok b)) ↔ l ≠ []) ∧
  (l = [] →
   parallel_collate_fn data st = (st, Raise (ValueError not_enough_values))).
Proof.
  intros Hdata. rewrite (parallel_collate_fn_run _ _ _ Hdata). split.
  - split.
    + intros (st' & b & Hrun) ->. by vm_compute in Hrun.
    + intros Hne.
      destruct (sorted_by src_len true l) as [|x l'] eqn:Hl'; [|eauto].
      by apply sorted_by_nil_inv in Hl'.
  - intros ->. change (sorted_by src_len true []) with (@nil (tensor * tensor)).
    by rewrite (state_insert_id _ _ _ Hdata).
Qed.

Lemma collate_needs_one_pair_witness :
  ((∃ st' b, parallel_collate_fn 1%positive example_state = (st', Ok b))
   ↔ example_pairs ≠ []) ∧
  (example_pairs = [] →
   parallel_collate_fn 1%positive example_state
   = (example_state, Raise (ValueError not_enough_values))).
Proof.
  apply (collate_needs_one_pair 1%positive example_state example_pairs).
  reflexivity.
Defined.

(** X9.  On a list that is already in descending order of source length,
    [parallel_collate_fn] changes nothing in the state and the rows of the
    batch are the pairs in the order of the list. *)
Theorem collate_keeps_descending_input (data : loc) (st : state)
    (l : list (tensor * tensor)) :
  heap st !! data = Some l →
  l ≠ [] →
  StronglySorted (λ x y, src_len y ≤ src_len x) l →
  ∃ b : batch,
    parallel_collate_fn data st = (st, Ok b) ∧ batch_pairs b = l.
Proof.
  intros Hdata Hne Hl. exists (collated (PAD_WORD st) l).
  split; [by apply parallel_collate_fn_descending|].
  apply batch_pairs_collated.
Qed.

Lemma collate_keeps_descending_input_witness :
  ∃ b : batch,
    parallel_collate_fn 1%positive example_state_after
      = (example_state_after, Ok b) ∧
    batch_pairs b = example_sorted.
Proof.
  apply (collate_keeps_descending_input 1%positive example_state_after
           example_sorted).
  - reflexivity.
  - discriminate.
  - apply (bool_decide_unpack _). by vm_compute.
Defined.

(** X10.  A second call of [parallel_collate_fn] on the same list object
    returns the batch of the first and leaves the state the first call
    left. *)
Theorem collate_twice (data : loc) (st st' : state) (b : batch) :
  parallel_collate_fn data st = (st', Ok b) →
  parallel_collate_fn data st' = (st', Ok b).
Proof.
  intros Hrun.
  destruct (parallel_collate_fn_Ok_list _ _ _ _ Hrun) as [l Hdata].
  destruct (parallel_collate_fn_Ok _ _ _ _ _ Hdata Hrun)
    as (l' & Hl' & Hne & -> & ->).
  apply (parallel_collate_fn_descending data
           {| PAD_WORD := PAD_WORD st; heap := <[data := l']> (heap st) |} l').
  - apply lookup_insert_eq.
  - intros ->. symmetry in Hl'. by apply sorted_by_nil_inv in Hl'.
  - rewrite Hl'. apply sorted_by_reverse_sorted.
Qed.

Lemma collate_twice_witness :
  parallel_collate_fn 1%positive example_state_after
  = (example_state_after, Ok example_batch).
Proof.
  apply (collate_twice 1%positive example_state).
  vm_compute. reflexivity.
Defined.

Lemma pad_row_length (width : nat) (pad : Z) (seq : tensor) :
  length seq ≤ width → length (pad_row width pad seq) = width.
Proof.
  intros Hle. unfold pad_row. rewrite length_app, length_replicate. lia.
Qed.

(** Every row of a padded grid has the width of the grid. *)
Lemma padded_grid_rectangular (pad : Z) (sequences : list tensor) :
  Forall (λ row, length row = cols (padded_grid pad sequences))
    (cells (padded_grid pad sequences)).
Proof.
  rewrite cols_padded_grid. unfold padded_grid. cbn [cells].
  apply Forall_fmap, Forall_lookup_2. intros i seq Hi. cbn.
  apply pad_row_length. by eapply length_le_max_list.
Qed.

Lemma max_list_le (n : nat) (ns : list nat) :
  Forall (λ m, m ≤ n) ns → max_list ns ≤ n.
Proof. induction 1; cbn; lia. Qed.

(** In descending order the first key is the greatest. *)
Lemma max_list_descending {A} (key : A → nat) (x : A) (l : list A) :
  StronglySorted (λ a b, key b ≤ key a) (x :: l) →
  max_list (key <$> x :: l) = key x.
Proof.
  intros [Hl Hx]%StronglySorted_inv. cbn.
  apply Nat.max_l, max_list_le, Forall_fmap.
  eapply Forall_impl; [exact Hx|]. done.
Qed.

(** X11.  Both grids of a returned batch are rectangular: as many rows as
    their shape says, each as long as the column count.  No column is
    padding only: the first source row fills the source grid, and some
    target row fills the target grid. *)
Theorem collate_grids_rectangular (data : loc) (st st' : state)
    (src_seqs trg_seqs : tensor2) (src_lengths trg_lengths : list nat) :
  parallel_collate_fn data st
    = (st', Ok (src_seqs, src_lengths, trg_seqs, trg_lengths)) →
  (length (cells src_seqs) = rows src_seqs ∧
   Forall (λ row, length row = cols src_seqs) (cells src_seqs)) ∧
  (length (cells trg_seqs) = rows trg_seqs ∧
   Forall (λ row, length row = cols trg_seqs) (cells trg_seqs)) ∧
  src_lengths !! 0 = Some (cols src_seqs) ∧
  cols trg_seqs ∈ trg_lengths.
Proof.
  intros Hrun.
  destruct (parallel_collate_fn_Ok_list _ _ _ _ Hrun) as [l Hdata].
  destruct (parallel_collate_fn_Ok _ _ _ _ _ Hdata Hrun)
    as (l' & Hl' & Hne & _ & Hb).
  pose proof (sorted_by_reverse_sorted src_len l) as Hsorted.
  rewrite <-Hl' in Hsorted.
  assert (l' ≠ []) as Hne'.
  { intros ->. symmetry in Hl'. by apply sorted_by_nil_inv in Hl'. }
  clear Hl' Hrun Hdata Hne.
  unfold collated in Hb. injection Hb as -> -> -> ->.
  rewrite !length_cells_padded_grid, !rows_padded_grid.
  split_and!; [done|apply padded_grid_rectangular|done
              |apply padded_grid_rectangular|..].
  - destruct l' as [|x l']; [done|].
    rewrite cols_padded_grid.
    assert (max_list (length <$> (x :: l').*1) = src_len x) as ->; [|done].
    rewrite <-list_fmap_compose.
    apply (max_list_descending src_len x l' Hsorted).
  - rewrite cols_padded_grid. apply max_list_elem_of.
    by destruct l'.
Qed.

Lemma collate_grids_rectangular_witness :
  (length (cells example_src_seqs) = rows example_src_seqs ∧
   Forall (λ row, length row = cols example_src_seqs)
     (cells example_src_seqs)) ∧
  (length (cells example_trg_seqs) = rows example_trg_seqs ∧
   Forall (λ row, length row = cols example_trg_seqs)
     (cells example_trg_seqs)) ∧
  [5; 3; 3] !! 0 = Some (cols example_src_seqs) ∧
  cols example_trg_seqs ∈ [3; 5; 2].
Proof.
  apply (collate_grids_rectangular 1%positive example_state
           example_state_after example_src_seqs example_trg_seqs).
  vm_compute. reflexivity.
Defined.

(** X12.  A list of one pair gives a batch without padding: each grid is
    the one sequence of its side, and the state is as before the call. *)
Theorem collate_single_pair (data : loc) (st : state) (src trg : tensor) :
  heap st !! data = Some [(src, trg)] →
  parallel_collate_fn data st
  = (st, Ok ({| shape := (1, length src); cells := [src] |}, [length src],
             {| shape := (1, length trg); cells := [trg] |}, [length trg])).
Proof.
  intros Hdata.
  rewrite (parallel_collate_fn_descending _ _ _ Hdata);
    [|done|repeat constructor].
  unfold collated, padded_grid, pad_row. cbn.
  by rewrite !Nat.max_0_r, !Nat.sub_diag, !app_nil_r.
Qed.

Lemma collate_single_pair_witness :
  parallel_collate_fn 1%positive
    {| PAD_WORD := 7; heap := {[ 1%positive := [([1; 3; 2], [1; 2])]%Z ]} |}
  = ({| PAD_WORD := 7; heap := {[ 1%positive := [([1; 3; 2], [1; 2])]%Z ]} |},
     Ok ({| shape := (1, length [1; 3; 2]%Z); cells := [[1; 3; 2]%Z] |},
         [length [1; 3; 2]%Z],
         {| shape := (1, length [1; 2]%Z); cells := [[1; 2]%Z] |},
         [length [1; 2]%Z])).
Proof.
  apply (collate_single_pair 1%positive
           {| PAD_WORD := 7;
              heap := {[ 1%positive := [([1; 3; 2], [1; 2])]%Z ]} |}).
  reflexivity.
Defined.

(** ** The factories: failures and what they leave *)

(** X13.  A factory writes [PAD_WORD] as soon as the dataset is built:
    when construction of the dataset succeeds the global holds the
    dataset's pad index after the call, also when the call then raises for
    the sampler or for a batch size of 0; when construction of the dataset
    fails, the call raises the same exception and the state is untouched. *)
Theorem factories_write_PAD_WORD_first
    (DistributedSampler : nat → nat → nat → result (list nat))
    (files : gmap string file) (src_path trg_path : string)
    (src_word2id trg_word2id : list string)
    (batch_size world_size rank : nat) (st : state) :
  match ParallelDataset_init files src_path trg_path src_word2id
          trg_word2id with
  | Ok dataset =>
      (get_valid_parallel_loader files src_path trg_path src_word2id
         trg_word2id batch_size st).1
      = {| PAD_WORD := Z.of_nat (pad_index dataset); heap := heap st |} ∧
      (get_train_parallel_loader DistributedSampler files src_path trg_path
         src_word2id trg_word2id batch_size world_size rank st).1
      = {| PAD_WORD := Z.of_nat (pad_index dataset); heap := heap st |} ∧
      get_valid_parallel_loader files src_path trg_path src_word2id
        trg_word2id 0 st
      = ({| PAD_WORD := Z.of_nat (pad_index dataset); heap := heap st |},
         Raise (ValueError bad_batch_size))
  | Raise e =>
      get_valid_parallel_loader files src_path trg_path src_word2id
        trg_word2id batch_size st = (st, Raise e) ∧
      get_train_parallel_loader DistributedSampler files src_path trg_path
        src_word2id trg_word2id batch_size world_size rank st
      = (st, Raise e)
  end.
Proof.
  rewrite !get_valid_parallel_loader_run, get_train_parallel_loader_run.
  destruct (ParallelDataset_init _ _ _ _ _) as [dataset|e] eqn:Hinit; [|done].
  by rewrite (init_Ok_pad_index _ _ _ _ _ _ Hinit).
Qed.

(** X14.  The target vocabulary plays no part in the pad value: two calls
    of a factory that differ in the target vocabulary only leave the same
    state, and one raises exactly when the other does, with the same
    exception. *)
Theorem target_vocabulary_not_consulted (files : gmap string file)
    (src_path trg_path : string) (src_word2id trg1 trg2 : list string)
    (batch_size : nat) (st : state) :
  (get_valid_parallel_loader files src_path trg_path src_word2id trg1
     batch_size st).1
  = (get_valid_parallel_loader files src_path trg_path src_word2id trg2
       batch_size st).1 ∧
  ∀ e : exn,
    (get_valid_parallel_loader files src_path trg_path src_word2id trg1
       batch_size st).2 = Raise e ↔
    (get_valid_parallel_loader files src_path trg_path src_word2id trg2
       batch_size st).2 = Raise e.
Proof.
  rewrite !get_valid_parallel_loader_run. unfold ParallelDataset_init.
  destruct (open_read files src_path) as [src_text|e1]; [|done].
  destruct (open_read files trg_path) as [trg_text|e1]; [|done]. cbn.
  destruct (Py.index src_word2id "<pad>") as [pad|e1]; [|done]. cbn.
  unfold DataLoader.new. by case_decide.
Qed.

(** ** A pass over a well-formed corpus *)

Lemma preprocess_in_vocabulary (line : string) (word2id : list string)
    (trg : bool) :
  Forall (λ w, w ∈ word2id) (looked_up line) →
  ∃ seq, preprocess line word2id trg = Ok seq.
Proof.
  intros Hall. rewrite preprocess_traverse.
  destruct (index_all_Ok _ _ Hall) as (ids & Hids).
  rewrite (mapM_Ok _ _ ids); [eauto|].
  eapply Forall2_impl; [exact Hids|]. by intros ?? [? _].
Qed.

Lemma getitem_in_vocabulary (self : ParallelDataset) (n i : nat) :
  aligned self n → in_vocabulary self → i < n →
  ∃ item, ParallelDataset_getitem self (Z.of_nat i) = Ok item.
Proof.
  intros [Hsrc Htrg] [Hsv Htv] Hi. unfold ParallelDataset_getitem.
  destruct (lookup_lt_is_Some_2 (src_seqs self) i) as [src_line Hsl]; [lia|].
  destruct (lookup_lt_is_Some_2 (trg_seqs self) i) as [trg_line Htl]; [lia|].
  rewrite (getitem_nat _ _ _ Hsl), (getitem_nat _ _ _ Htl). cbn.
  destruct (preprocess_in_vocabulary src_line (src_word2id self) false)
    as [src ->].
  { rewrite Forall_forall in Hsv. apply Hsv.
    by eapply list_elem_of_lookup_2. }
  destruct (preprocess_in_vocabulary trg_line (trg_word2id self) true)
    as [trg ->].
  { rewrite Forall_forall in Htv. apply Htv.
    by eapply list_elem_of_lookup_2. }
  cbn. eauto.
Qed.

(** Fetching a batch of indices that all reach an item of the corpus. *)
Lemma fetch_in_vocabulary (dl : DataLoader.t) (n : nat)
    (indices : list nat) (st : state) :
  aligned (DataLoader.dataset dl) n →
  in_vocabulary (DataLoader.dataset dl) →
  indices ≠ [] → Forall (λ i, i < n) indices →
  ∃ (st' : state) (b : batch),
    DataLoader.fetch dl indices st = (st', Ok b) ∧
    PAD_WORD st' = PAD_WORD st ∧
    rows b.1.1.1 = length indices ∧ rows b.1.2 = length indices.
Proof.
  intros Haligned Hvocab Hne Hrange.
  assert (∃ items, Forall2 (λ i item,
            ParallelDataset_getitem (DataLoader.dataset dl) (Z.of_nat i)
            = Ok item) indices items) as [items Hitems].
  { clear Hne. induction Hrange as [|i indices Hi _ [items IH]].
    - by exists [].
    - destruct (getitem_in_vocabulary _ n i Haligned Hvocab Hi)
        as [item Hitem].
      exists (item :: items). by constructor. }
  unfold DataLoader.fetch, mbind, M_bind, lift, new_list.
  rewrite (mapM_Ok _ _ _ Hitems).
  rewrite (parallel_collate_fn_run _ _ items) by apply lookup_insert_eq.
  cbn [PAD_WORD heap].
  destruct (sorted_by src_len true items) as [|x l'] eqn:Hsorted.
  { apply sorted_by_nil_inv in Hsorted as ->.
    apply Forall2_length in Hitems. by destruct indices. }
  eexists _, _. split; [reflexivity|]. split; [done|].
  unfold collated. cbn [fst snd].
  rewrite !rows_padded_grid, !length_fmap, <-Hsorted.
  rewrite (Permutation_length (sorted_by_reverse_Permutation _ _)).
  split; symmetry; by eapply Forall2_length.
Qed.

(** A traversal in [M] returns when each step does, from any state that
    satisfies an invariant the steps keep. *)
Lemma M_mapM_total {A B} (f : A → M B) (P : A → Prop) (Q : A → B → Prop)
    (I : state → Prop) (l : list A) (st : state) :
  (∀ a s, P a → I s → ∃ s' b, f a s = (s', Ok b) ∧ I s' ∧ Q a b) →
  Forall P l → I st →
  ∃ st' k, mapM f l st = (st', Ok k) ∧ I st' ∧ Forall2 Q l k.
Proof.
  intros Hstep Hl. revert st.
  induction Hl as [|a l Ha _ IH]; intros st Hst.
  - exists st, []. by split_and!.
  - destruct (Hstep a st Ha Hst) as (s1 & b & Hfa & Hs1 & Hq).
    destruct (IH s1 Hs1) as (s2 & k & Hl & Hs2 & Hqs).
    exists s2, (b :: k). split_and!; [|done|by constructor].
    cbn. unfold mbind at 1, M_bind at 1. rewrite Hfa.
    unfold mbind at 1, M_bind at 1. by rewrite Hl.
Qed.

(** X15.  A pass over a corpus never raises when the two files have the
    same number of lines, every word looked up is in its vocabulary and the
    sampler gives indices below that number: the loader yields one batch
    per batch of indices, each with one row per index, and [PAD_WORD] is
    what it was. *)
Theorem pass_over_well_formed_corpus (dl : DataLoader.t) (n : nat)
    (st : state) :
  aligned (DataLoader.dataset dl) n →
  in_vocabulary (DataLoader.dataset dl) →
  Forall (λ i, i < n) (DataLoader.sampler dl) →
  0 < DataLoader.batch_size dl →
  ∃ (st' : state) (batches : list batch),
    DataLoader.run dl st = (st', Ok batches) ∧
    PAD_WORD st' = PAD_WORD st ∧
    (λ b : batch, rows b.1.1.1) <$> batches
      = length <$> DataLoader.iter dl ∧
    (λ b : batch, rows b.1.2) <$> batches
      = length <$> DataLoader.iter dl.
Proof.
  intros Haligned Hvocab Hrange Hsize.
  destruct (BatchSampler_from_spec (DataLoader.batch_size dl)
              (DataLoader.sampler dl) []) as (Hcat & Hall & _); [cbn; lia|].
  fold (DataLoader.BatchSampler (DataLoader.batch_size dl)
          (DataLoader.sampler dl)) in Hcat, Hall.
  fold (DataLoader.iter dl) in Hcat, Hall. cbn in Hcat.
  destruct (M_mapM_total (DataLoader.fetch dl)
              (λ indices, indices ≠ [] ∧ Forall (λ i, i < n) indices)
              (λ indices (b : batch),
                 rows b.1.1.1 = length indices ∧ rows b.1.2 = length indices)
              (λ s, PAD_WORD s = PAD_WORD st) (DataLoader.iter dl) st)
    as (st' & batches & Hrun & Hpad & Hrows).
  - intros indices s [Hne Hin] Hs.
    destruct (fetch_in_vocabulary dl n indices s Haligned Hvocab Hne Hin)
      as (s' & b & Hfetch & Hpad & Hr).
    exists s', b. split; [done|]. split; [congruence|done].
  - apply Forall_forall. intros indices Hin. split.
    + rewrite Forall_forall in Hall. specialize (Hall indices Hin).
      intros ->. cbn in Hall. lia.
    + apply Forall_forall. intros i Hi.
      rewrite Forall_forall in Hrange. apply Hrange.
      rewrite <-Hcat. apply list_elem_of_In, in_concat.
      exists indices. split; by apply list_elem_of_In.
  - done.
  - exists st', batches. unfold DataLoader.run.
    split_and!; [done|done|..];
      apply list_eq; intros k; rewrite !list_lookup_fmap;
      destruct (proj1 (Forall2_lookup _ _ _) Hrows k)
        as [indices b [Hs Ht]|]; cbn; congruence.
Qed.

Lemma pass_over_well_formed_corpus_witness :
  ∃ (st' : state) (batches : list batch),
    DataLoader.run example_loader module_state = (st', Ok batches) ∧
    PAD_WORD st' = PAD_WORD module_state ∧
    (λ b : batch, rows b.1.1.1) <$> batches
      = length <$> DataLoader.iter example_loader ∧
    (λ b : batch, rows b.1.2) <$> batches
      = length <$> DataLoader.iter example_loader.
Proof.
  apply (pass_over_well_formed_corpus example_loader 5 module_state).
  - split; reflexivity.
  - unfold in_vocabulary. apply (bool_decide_unpack _). by vm_compute.
  - apply (bool_decide_unpack _). by vm_compute.
  - apply (bool_decide_unpack _). by vm_compute.
Defined.

(** ** The number of batches *)

Lemma BatchSampler_from_length (batch_size : nat) (sampler batch : list nat) :
  length batch < batch_size →
  length (DataLoader.BatchSampler_from batch batch_size sampler)
  = (length batch + length sampler + batch_size - 1) / batch_size.
Proof.
  revert batch. induction sampler as [|idx rest IH]; intros batch Hlt.
  - destruct batch as [|i batch]; cbn [DataLoader.BatchSampler_from length].
    + symmetry. apply Nat.div_small. lia.
    + apply (Nat.div_unique _ _ 1 (length batch)); cbn in Hlt; lia.
  - cbn [DataLoader.BatchSampler_from length]. case_decide as Hfull.
    + rewrite length_app in Hfull. cbn in Hfull.
      cbn [length]. rewrite (IH []) by (cbn; lia). cbn [length].
      replace (length batch + S (length rest) + batch_size - 1)
        with (1 * batch_size + (0 + length rest + batch_size - 1)) by lia.
      rewrite Nat.div_add_l by lia. lia.
    + rewrite length_app in Hfull. cbn in Hfull.
      rewrite IH by (rewrite length_app; cbn; lia).
      rewrite length_app. cbn. f_equal. lia.
Qed.

Lemma init_Ok_src_seqs (files : gmap string file)
    (src_path trg_path src_text : string)
    (src_word2id trg_word2id : list string) (dataset : ParallelDataset) :
  files !! src_path = Some (Text src_text) →
  ParallelDataset_init files src_path trg_path src_word2id trg_word2id
    = Ok dataset →
  src_seqs dataset = Py.splitlines src_text.
Proof.
  intros Hsrc. unfold ParallelDataset_init.
  assert (open_read files src_path = Ok src_text) as ->
    by (unfold open_read; by rewrite Hsrc).
  destruct (open_read files trg_path) as [trg_text|e]; [|done]. cbn.
  destruct (Py.index src_word2id "<pad>") as [pad|e]; [|done].
  by intros [= <-].
Qed.

(** X16.  The loader [get_valid_parallel_loader] returns has a positive
    batch size; the length of its dataset is the number of lines of the
    file at the source path, whatever the target file holds, and it has as
    many batches as [batch_size] divides into that number, rounded up. *)
Theorem valid_loader_batch_count (files : gmap string file)
    (src_path trg_path src_text : string)
    (src_word2id trg_word2id : list string)
    (batch_size : nat) (st st' : state) (data_loader : DataLoader.t) :
  files !! src_path = Some (Text src_text) →
  get_valid_parallel_loader files src_path trg_path src_word2id trg_word2id
    batch_size st = (st', Ok data_loader) →
  0 < batch_size ∧
  ParallelDataset_len (DataLoader.dataset data_loader)
    = length (Py.splitlines src_text) ∧
  length (DataLoader.iter data_loader)
    = (length (Py.splitlines src_text) + batch_size - 1) / batch_size.
Proof.
  intros Hsrc. rewrite get_valid_parallel_loader_run.
  destruct (ParallelDataset_init _ _ _ _ _) as [dataset|e] eqn:Hinit; [|done].
  destruct (Py.index _ _) as [pad|e]; [|done].
  unfold DataLoader.new. case_decide as Hsize; [done|].
  intros [= _ <-]. unfold DataLoader.iter, DataLoader.BatchSampler. cbn.
  pose proof (init_Ok_len _ _ _ _ _ _ Hinit) as Hlen.
  rewrite (init_Ok_src_seqs _ _ _ _ _ _ _ Hsrc Hinit) in Hlen.
  split_and!; [lia|done|].
  rewrite BatchSampler_from_length by (cbn; lia).
  unfold DataLoader.SequentialSampler. rewrite length_seq, Hlen. done.
Qed.

Lemma valid_loader_batch_count_witness :
  0 < 1 ∧
  ParallelDataset_len
    (DataLoader.dataset
       {| DataLoader.dataset := misaligned_dataset;
          DataLoader.batch_size := 1;
          DataLoader.sampler := [0; 1] |})
    = length (Py.splitlines (text_of_lines ["i am"; "fine"])) ∧
  length (DataLoader.iter
            {| DataLoader.dataset := misaligned_dataset;
               DataLoader.batch_size := 1;
               DataLoader.sampler := [0; 1] |})
    = (length (Py.splitlines (text_of_lines ["i am"; "fine"])) + 1 - 1) / 1.
Proof.
  apply (valid_loader_batch_count misaligned_files "train.src" "train.trg"
           (text_of_lines ["i am"; "fine"]) vocab vocab 1 module_state
           {| PAD_WORD := 0; heap := ∅ |}).
  - reflexivity.
  - vm_compute. reflexivity.
Defined.

(** X17.  The loader the training factory returns goes through exactly the
    indices of the sampler it returns with it, in the sampler's order; the
    sampler was asked for the number of source lines, and the batches are
    as many as [batch_size] divides into the sampler's indices, rounded
    up. *)
Theorem train_loader_follows_sampler
    (DistributedSampler : nat → nat → nat → result (list nat))
    (files : gmap string file) (src_path trg_path : string)
    (src_word2id trg_word2id : list string)
    (batch_size world_size rank : nat) (st st' : state)
    (data_loader : DataLoader.t) (sampler : list nat) :
  get_train_parallel_loader DistributedSampler files src_path trg_path
    src_word2id trg_word2id batch_size world_size rank st
    = (st', Ok (data_loader, sampler)) →
  ParallelDataset_init files src_path trg_path src_word2id trg_word2id
    = Ok (DataLoader.dataset data_loader) ∧
  DistributedSampler (length (src_seqs (DataLoader.dataset data_loader)))
    world_size rank = Ok sampler ∧
  concat (DataLoader.iter data_loader) = sampler ∧
  length (DataLoader.iter data_loader)
    = (length sampler + batch_size - 1) / batch_size.
Proof.
  rewrite get_train_parallel_loader_run.
  destruct (ParallelDataset_init _ _ _ _ _) as [dataset|e] eqn:Hinit; [|done].
  rewrite (init_Ok_len _ _ _ _ _ _ Hinit).
  destruct (DistributedSampler _ _ _) as [sampler'|e] eqn:Hs; [|done]. cbn.
  unfold DataLoader.new. case_decide as Hsize; [done|]. cbn.
  intros [= _ <- <-]. unfold DataLoader.iter, DataLoader.BatchSampler. cbn.
  destruct (BatchSampler_from_spec batch_size sampler' [])
    as (Hcat & _ & _); [cbn; lia|].
  split_and!; [done..|].
  by rewrite BatchSampler_from_length by (cbn; lia).
Qed.

Lemma train_loader_follows_sampler_witness :
  ParallelDataset_init example_files "valid.src" "valid.trg" vocab vocab
    = Ok (DataLoader.dataset
            {| DataLoader.dataset := example_dataset;
               DataLoader.batch_size := 2;
               DataLoader.sampler := [3; 4; 0] |}) ∧
  (λ n world_size rank, Ok (take 3 (rotate (world_size + rank) (seq 0 n))))
    (length (src_seqs example_dataset)) 2 1 = Ok [3; 4; 0] ∧
  concat (DataLoader.iter
            {| DataLoader.dataset := example_dataset;
               DataLoader.batch_size := 2;
               DataLoader.sampler := [3; 4; 0] |}) = [3; 4; 0] ∧
  length (DataLoader.iter
            {| DataLoader.dataset := example_dataset;
               DataLoader.batch_size := 2;
               DataLoader.sampler := [3; 4; 0] |})
    = (length [3; 4; 0] + 2 - 1) / 2.
Proof.
  apply (train_loader_follows_sampler
           (λ n world_size rank,
              Ok (take 3 (rotate (world_size + rank) (seq 0 n))))
           example_files "valid.src" "valid.trg" vocab vocab 2 2 1
           module_state {| PAD_WORD := 0; heap := ∅ |}
           {| DataLoader.dataset := example_dataset;
              DataLoader.batch_size := 2;
              DataLoader.sampler := [3; 4; 0] |} [3; 4; 0]).
  vm_compute. reflexivity.
Defined.
